(** * Policy dashboard (web/app.js): shallow embedding and verified properties

    The dashboard loads a policy dataset and a boundary map, renders three
    KPI slots, a choropleth map, two charts and a table, and narrows the
    table when a map region or a chart bar is clicked.  This file embeds the
    data-join, filter and render pipeline of [web/app.js] and proves the
    properties the specification states about it.

    Rendering is modelled at the level of display structure: an element's
    [innerHTML] is the sequence of items the template produces, a text slot
    holds the value assigned to [textContent] (before the DOM's ToString).
    The network layer and the drawing engines (ECharts, Chart.js) are
    outside the model; of the charts only the data handed to them is
    kept. *)

From Stdlib Require Import String Ascii.
From Stdlib Require Import List ZArith NArith Bool Lia Permutation Sorted.
Import ListNotations.
Local Open Scope list_scope.

Set Implicit Arguments.

(* ===================================================================== *)
(** * JavaScript values *)
(* ===================================================================== *)

(** A JavaScript string is a sequence of UTF-16 code units; [length],
    [substring], [includes] and [===] all work on code units. *)
Definition code_unit := N.
Definition jsstring := list code_unit.

(** ASCII literals of the source. *)
Fixpoint lit (s : string) : jsstring :=
  match s with
  | EmptyString => []
  | String c s' => N_of_ascii c :: lit s'
  end.
Arguments lit s%_string : simpl never.

(** The literal "台湾" (U+53F0 U+6E7E). *)
Definition lit_Taiwan_zh : jsstring := [21488%N; 28286%N].

Definition underscore : code_unit := 95%N.
Definition space : code_unit := 32%N.

(** [a === b] on two strings. *)
Fixpoint str_eqb (a b : jsstring) : bool :=
  match a, b with
  | [], [] => true
  | x :: a', y :: b' => N.eqb x y && str_eqb a' b'
  | _, _ => false
  end.

(** [s.startsWith(pat)] (used by [includes] and [replace]). *)
Fixpoint startsWith (s pat : jsstring) {struct pat} : bool :=
  match pat, s with
  | [], _ => true
  | _ :: _, [] => false
  | p :: pat', c :: s' => N.eqb p c && startsWith s' pat'
  end.

(** [s.includes(pat)]: [pat] occurs in [s] as a contiguous run. *)
Fixpoint includes (s pat : jsstring) : bool :=
  startsWith s pat ||
  match s with
  | [] => false
  | _ :: s' => includes s' pat
  end.

(** [s.replace(pat, rep)] with a string pattern: only the first occurrence
    of [pat] is replaced.  (The replacements of the source contain no [$]
    pattern.) *)
Fixpoint replace (s pat rep : jsstring) : jsstring :=
  if startsWith s pat then rep ++ skipn (length pat) s
  else match s with
       | [] => []
       | c :: s' => c :: replace s' pat rep
       end.

(** [s.replace(/_/g, ' ')]: every underscore becomes a space. *)
Definition replace_underscores (s : jsstring) : jsstring :=
  map (fun c => if N.eqb c underscore then space else c) s.

(** [s.substring(0, n)]. *)
Definition substring0 (s : jsstring) (n : nat) : jsstring := firstn n s.

(** [s.split('_')]; the result is never empty. *)
Fixpoint split_underscore (s : jsstring) : list jsstring :=
  match s with
  | [] => [[]]
  | c :: s' =>
      if N.eqb c underscore then [] :: split_underscore s'
      else match split_underscore s' with
           | seg :: segs => (c :: seg) :: segs
           | [] => [[c]]
           end
  end.

(** [arr.pop()] on the array returned by [split]: its last element. *)
Definition pop (segs : list jsstring) : jsstring := last segs [].

(** The dynamically typed values of the dataset.  Numbers are the integers
    (counts, years, administrative codes); fractional numbers and NaN do not
    occur in the modelled fields. *)
Inductive jsval :=
| JUndefined
| JNull
| JBool (b : bool)
| JNum (n : Z)
| JStr (s : jsstring).

(** ToBoolean. *)
Definition truthy (v : jsval) : bool :=
  match v with
  | JUndefined | JNull => false
  | JBool b => b
  | JNum n => negb (n =? 0)%Z
  | JStr [] => false
  | JStr (_ :: _) => true
  end.

(** [a || b]. *)
Definition js_or (a b : jsval) : jsval := if truthy a then a else b.

(** [arr.includes(x)] on an array of strings: membership of an element. *)
Definition arr_includes (arr : list jsstring) (x : jsstring) : bool :=
  existsb (fun y => str_eqb y x) arr.

(** [arr.slice(0, n)]. *)
Definition slice0 (A : Type) (arr : list A) (n : nat) : list A := firstn n arr.

(** A plain object used as a mapping: its own enumerable properties in
    enumeration order.  Keys are unique in a well-formed object.  An object
    of the dataset is given by its entries as [Object.entries] lists them;
    an object the program builds gets its order from [obj_set]. *)
Definition jsobj (V : Type) := list (jsstring * V).

Definition Object_entries (V : Type) (o : jsobj V) : list (jsstring * V) := o.
Definition Object_keys (V : Type) (o : jsobj V) : list jsstring := map fst o.

Definition wf_obj (V : Type) (o : jsobj V) : Prop := NoDup (Object_keys o).

(** [o[k]]: [None] when the property is absent. *)
Fixpoint obj_get (V : Type) (o : jsobj V) (k : jsstring) : option V :=
  match o with
  | [] => None
  | (k', v) :: o' => if str_eqb k' k then Some v else obj_get o' k
  end.

(** [k] is a key of the object [o]. *)
Definition has_key (V : Type) (o : jsobj V) (k : jsstring) : bool :=
  existsb (fun k' => str_eqb k' k) (Object_keys o).

(** The value of a string of decimal digits, [None] if it has another
    code unit. *)
Fixpoint decimal_value (acc : N) (s : jsstring) : option N :=
  match s with
  | [] => Some acc
  | c :: s' =>
      if (N.leb 48 c && N.leb c 57)%bool
      then decimal_value (10 * acc + (c - 48))%N s'
      else None
  end.

(** An array index is a key that is the canonical decimal form of an
    integer from 0 to 2^32 - 2: "0", or digits without a leading zero.
    Property enumeration lists such keys first, in ascending order. *)
Definition array_index (k : jsstring) : option N :=
  match k with
  | [] => None
  | c :: rest =>
      if N.eqb c 48
      then match rest with
           | [] => Some 0%N
           | _ :: _ => None
           end
      else match decimal_value 0 k with
           | Some n => if N.leb n 4294967294 then Some n else None
           | None => None
           end
  end.

(** Writing an existing property: it keeps its place and takes the new
    value. *)
Fixpoint obj_update (V : Type) (o : jsobj V) (k : jsstring) (v : V) : jsobj V :=
  match o with
  | [] => []
  | (k', v') :: o' =>
      if str_eqb k' k then (k', v) :: o' else (k', v') :: obj_update o' k v
  end.

(** The place of a new array-index property: before the first property
    that is not an array index or has an index that is not smaller. *)
Fixpoint obj_insert_index (V : Type) (o : jsobj V) (n : N) (k : jsstring)
    (v : V) : jsobj V :=
  match o with
  | [] => [(k, v)]
  | (k', v') :: o' =>
      match array_index k' with
      | Some m =>
          if N.ltb m n then (k', v') :: obj_insert_index o' n k v
          else (k, v) :: o
      | None => (k, v) :: o
      end
  end.

(** Defining property [k]: an existing property keeps its place and takes
    the new value; a new array index goes among the array indices, in
    ascending order; any other new key is added at the end. *)
Definition obj_set (V : Type) (o : jsobj V) (k : jsstring) (v : V) : jsobj V :=
  if has_key o k then obj_update o k v
  else match array_index k with
       | Some n => obj_insert_index o n k v
       | None => o ++ [(k, v)]
       end.

(** [{ ...target, ...src }]: the properties of [src] are copied onto
    [target] in the enumeration order of [src]. *)
Definition spread (V : Type) (target src : jsobj V) : jsobj V :=
  fold_left (fun acc kv => obj_set acc (fst kv) (snd kv)) src target.

(** [Array.prototype.sort(compareFn)]: a stable sort; [a] is placed after
    [b] only when [compareFn a b > 0].  Under a consistent comparator every
    stable sort returns the same array (see [stable_sort_unique]), so the
    straight insertion sort stands for the engine's algorithm. *)
Section Sort.
Variable A : Type.
Variable compareFn : A -> A -> Z.

Fixpoint sort_insert (x : A) (l : list A) : list A :=
  match l with
  | [] => [x]
  | y :: l' => if (0 <? compareFn x y)%Z then y :: sort_insert x l'
               else x :: y :: l'
  end.

Fixpoint Array_sort (l : list A) : list A :=
  match l with
  | [] => []
  | x :: l' => sort_insert x (Array_sort l')
  end.
End Sort.

(** A completed call: a normal return or a thrown TypeError. *)
Inductive completion (A : Type) :=
| Normal (a : A)
| TypeError.
Arguments TypeError {A}.

(* ===================================================================== *)
(** * The dataset and the boundary geometry *)
(* ===================================================================== *)

(** A [{value, evidence}] pair of a target or financial instrument. *)
Record Detail := { value : jsval; evidence : jsval }.

Record Policy := {
  id : jsstring;
  title : jsstring;
  province : jsstring;
  year : jsval;
  instruments : list jsstring;
  targets : option (jsobj (option Detail));
  subsidies : jsobj (option Detail);
  taxes : jsobj (option Detail);
  rd : jsobj (option Detail);
  other : option (list jsstring)
}.

Record Summary := { total_policies : jsval; top_instrument : jsstring }.
Record ProvinceStat := { count : jsval; subsidy_intensity : jsval }.
Record TimelineBucket := { tl_year : jsval; tl_count : jsval }.

Record Data := {
  summary : Summary;
  provinces : jsobj ProvinceStat;
  timeline : list TimelineBucket;
  global_instruments : jsobj Z;
  policies : list Policy
}.

(** A boundary feature: [f.properties.name] ([None] when missing or null)
    and [f.properties.adcode] (a number for provinces, a string such as
    "100000_JD" for the dash-line feature). *)
Record Feature := { name : option jsstring; adcode : jsval }.
Record GeoJson := { features : option (list Feature) }.

(* ===================================================================== *)
(** * The page *)
(* ===================================================================== *)

(** One table row of [renderTable]: the values its template splices into
    the markup of the row. *)
Record Row := {
  row_onclick : jsstring;      (* openModal('<id>') *)
  row_title_attr : jsstring;   (* title="..." : the hover text *)
  row_title_text : jsstring;
  row_province : jsstring;
  row_year : jsval;
  row_tags : list jsstring
}.

Inductive Tbody :=
| NoPoliciesFound              (* the single placeholder row *)
| Rows (rows : list Row).

(** The content of a modal block: the fallback paragraph or the items. *)
Inductive Block (A : Type) :=
| Fallback (msg : jsstring)
| Items (items : list A).
Arguments Fallback {A}.

Record TargetItem := {
  tgt_label : jsstring;
  tgt_value : jsval;
  tgt_unit : jsstring;
  tgt_quote : option jsval
}.

Record FinanceItem := {
  fin_label : jsstring;
  fin_value : jsval;
  fin_quote : option jsval
}.

Record Dom := {
  kpi_total : jsval;
  kpi_top_inst : jsval;
  kpi_provinces : jsval;
  table_heading : jsval;                 (* .evidence-locker h2 *)
  policy_tbody : Tbody;
  modal_title : jsval;
  modal_targets : Block TargetItem;
  modal_subsidies : Block FinanceItem;
  modal_instruments : Block jsstring;
  overlay_hidden : bool                  (* class "hidden" on #modal-overlay *)
}.

Definition set_kpis (d : Dom) (t i p : jsval) : Dom :=
  {| kpi_total := t; kpi_top_inst := i; kpi_provinces := p;
     table_heading := table_heading d; policy_tbody := policy_tbody d;
     modal_title := modal_title d; modal_targets := modal_targets d;
     modal_subsidies := modal_subsidies d;
     modal_instruments := modal_instruments d;
     overlay_hidden := overlay_hidden d |}.

Definition set_table_heading (d : Dom) (h : jsval) : Dom :=
  {| kpi_total := kpi_total d; kpi_top_inst := kpi_top_inst d;
     kpi_provinces := kpi_provinces d;
     table_heading := h; policy_tbody := policy_tbody d;
     modal_title := modal_title d; modal_targets := modal_targets d;
     modal_subsidies := modal_subsidies d;
     modal_instruments := modal_instruments d;
     overlay_hidden := overlay_hidden d |}.

Definition set_policy_tbody (d : Dom) (b : Tbody) : Dom :=
  {| kpi_total := kpi_total d; kpi_top_inst := kpi_top_inst d;
     kpi_provinces := kpi_provinces d;
     table_heading := table_heading d; policy_tbody := b;
     modal_title := modal_title d; modal_targets := modal_targets d;
     modal_subsidies := modal_subsidies d;
     modal_instruments := modal_instruments d;
     overlay_hidden := overlay_hidden d |}.

Definition set_modal (d : Dom) (t : jsval) (tg : Block TargetItem)
    (su : Block FinanceItem) (ins : Block jsstring) : Dom :=
  {| kpi_total := kpi_total d; kpi_top_inst := kpi_top_inst d;
     kpi_provinces := kpi_provinces d;
     table_heading := table_heading d; policy_tbody := policy_tbody d;
     modal_title := t; modal_targets := tg;
     modal_subsidies := su;
     modal_instruments := ins;
     overlay_hidden := overlay_hidden d |}.

Definition set_overlay_hidden (d : Dom) (h : bool) : Dom :=
  {| kpi_total := kpi_total d; kpi_top_inst := kpi_top_inst d;
     kpi_provinces := kpi_provinces d;
     table_heading := table_heading d; policy_tbody := policy_tbody d;
     modal_title := modal_title d; modal_targets := modal_targets d;
     modal_subsidies := modal_subsidies d;
     modal_instruments := modal_instruments d;
     overlay_hidden := h |}.

(* ===================================================================== *)
(** * The program *)
(* ===================================================================== *)

(** What [initMap] hands to ECharts: the registered map and the series. *)
Record MapDatum := { md_name : jsstring; md_value : jsval; md_intensity : jsval }.
Record MapChart := { registeredMap : GeoJson; series_data : list MapDatum }.

(** The [data] object of a Chart.js chart. *)
Record TimelineChart := { tl_labels : list jsval; tl_data : list jsval }.
Record InstChart := {
  labels : list jsstring;
  rawKeys : list jsstring;
  dataset_data : list Z
}.

(** The state of the page: the DOM slots the program writes, the module
    variable [globalPolicies], and the data held by the three charts. *)
Record App := {
  dom : Dom;
  globalPolicies : list Policy;
  mapChart : MapChart;
  timelineChart : TimelineChart;
  instChart : InstChart
}.

Definition with_dom (app : App) (d : Dom) : App :=
  {| dom := d; globalPolicies := globalPolicies app; mapChart := mapChart app;
     timelineChart := timelineChart app; instChart := instChart app |}.

(** ** renderKPIs *)

Definition renderKPIs (data : Data) (d : Dom) : Dom :=
  set_kpis d
    (total_policies (summary data))
    (JStr (replace_underscores (top_instrument (summary data))))
    (JNum (Z.of_nat (length (Object_keys (provinces data))))).

(** ** initMap *)

Section Geometry.
(** ECMAScript's StringToNumber, as far as a comparison with an integer
    needs it: [Some m] when the string denotes exactly the integer [m],
    [None] otherwise (NaN or a fraction). *)
Variable StringToNumber : jsstring -> option Z.

(** [v == n] for a number [n] (loose equality). *)
Definition loose_eq_number (v : jsval) (n : Z) : bool :=
  match v with
  | JNum m => (m =? n)%Z
  | JStr s => match StringToNumber s with
              | Some m => (m =? n)%Z
              | None => false
              end
  | JBool b => ((if b then 1 else 0) =? n)%Z
  | JUndefined | JNull => false
  end.

(** [f.properties.name || ""]. *)
Definition name_or_empty (f : Feature) : jsstring :=
  match name f with
  | Some s => s
  | None => []
  end.

(** The callback of [geoJson.features.filter] (app.js 47-54). *)
Definition keepFeature (f : Feature) : bool :=
  let name := name_or_empty f in
  let adcode := adcode f in
  if includes name lit_Taiwan_zh || includes name (lit "Taiwan")
     || loose_eq_number adcode 710000
  then false
  else if str_eqb name [] then false
  else true.

(** [if (geoJson.features) geoJson.features = geoJson.features.filter(...)]. *)
Definition filterFeatures (geoJson : GeoJson) : GeoJson :=
  match features geoJson with
  | Some fs => {| features := Some (filter keepFeature fs) |}
  | None => geoJson
  end.

Definition provData (data : Data) : list MapDatum :=
  map (fun e => {| md_name := fst e;
                   md_value := count (snd e);
                   md_intensity := subsidy_intensity (snd e) |})
      (Object_entries (provinces data)).

Definition initMap (data : Data) (geoJson : GeoJson) : MapChart :=
  {| registeredMap := filterFeatures geoJson; series_data := provData data |}.
End Geometry.

(** ** initCharts *)

(** The comparator [(a, b) => b[1] - a[1]]. *)
Definition byCountDesc (a b : jsstring * Z) : Z := (snd b - snd a)%Z.

Definition sortedInst (data : Data) : list (jsstring * Z) :=
  slice0 (Array_sort byCountDesc (Object_entries (global_instruments data))) 8.

(** [d[0].replace(/_/g, ' ').replace('fiscal ', '').replace('tax ', '')]. *)
Definition displayLabel (key : jsstring) : jsstring :=
  replace (replace (replace_underscores key) (lit "fiscal ") []) (lit "tax ") [].

Definition initCharts_timeline (data : Data) : TimelineChart :=
  {| tl_labels := map tl_year (timeline data);
     tl_data := map tl_count (timeline data) |}.

Definition initCharts_inst (data : Data) : InstChart :=
  {| labels := map (fun d => displayLabel (fst d)) (sortedInst data);
     rawKeys := map fst (sortedInst data);
     dataset_data := map snd (sortedInst data) |}.

(** ** renderTable *)

Definition titleCell (t : jsstring) : jsstring :=
  if (35 <? length t)%nat then substring0 t 35 ++ lit "..." else t.

Definition renderRow (p : Policy) : Row :=
  {| row_onclick := id p;
     row_title_attr := title p;
     row_title_text := titleCell (title p);
     row_province := province p;
     row_year := js_or (year p) (JStr (lit "-"));
     row_tags := map (fun i => pop (split_underscore i))
                     (slice0 (instruments p) 2) |}.

Definition renderTable (policies : list Policy) (d : Dom) : Dom :=
  match policies with
  | [] => set_policy_tbody d NoPoliciesFound
  | _ :: _ => set_policy_tbody d (Rows (map renderRow policies))
  end.

(** ** filterTableByInstrument, filterTableByProvince *)

Definition filterTableByInstrument (instrumentKey : jsstring) (app : App) : App :=
  let d := set_table_heading (dom app)
             (JStr (lit "Policies using: " ++ replace_underscores instrumentKey)) in
  let filtered :=
    filter (fun p => arr_includes (instruments p) instrumentKey)
           (globalPolicies app) in
  with_dom app (renderTable filtered d).

Definition filterTableByProvince (provinceName : jsstring) (app : App) : App :=
  let d := set_table_heading (dom app)
             (JStr (lit "Policies in: " ++ provinceName)) in
  let filtered :=
    filter (fun p => str_eqb (province p) provinceName) (globalPolicies app) in
  with_dom app (renderTable filtered d).

(** ** openModal, closeModal *)

(** [html || fallback] for a block built by appending items. *)
Definition or_fallback (A : Type) (items : list A) (msg : jsstring) : Block A :=
  match items with
  | [] => Fallback msg
  | _ :: _ => Items items
  end.

Definition evidenceQuote (v : Detail) : option jsval :=
  if truthy (evidence v) then Some (evidence v) else None.

(** The body of the [forEach] over [Object.entries(p.targets)]. *)
Definition appendTarget (html : list TargetItem) (kv : jsstring * option Detail)
  : list TargetItem :=
  match snd kv with
  | Some v =>
      if truthy (value v)
      then html ++ [{| tgt_label :=
                         replace_underscores (replace (fst kv) (lit "target_") []);
                       tgt_value := value v;
                       tgt_unit := if includes (fst kv) (lit "vehicle")
                                   then lit "Vehicles" else [];
                       tgt_quote := evidenceQuote v |}]
      else html
  | None => html
  end.

Definition targetHtml (p : Policy) : list TargetItem :=
  match targets p with
  | Some t => fold_left appendTarget (Object_entries t) []
  | None => []
  end.

(** [{ ...p.subsidies, ...p.taxes, ...p.rd }]. *)
Definition allFinance (p : Policy) : jsobj (option Detail) :=
  spread (spread (spread [] (subsidies p)) (taxes p)) (rd p).

(** The body of the [forEach] over [Object.entries(allFinance)]. *)
Definition appendFinance (html : list FinanceItem) (kv : jsstring * option Detail)
  : list FinanceItem :=
  match snd kv with
  | Some v =>
      if truthy (js_or (value v) (evidence v))
      then html ++ [{| fin_label := replace_underscores (fst kv);
                       fin_value := js_or (value v) (JStr (lit "Yes"));
                       fin_quote := evidenceQuote v |}]
      else html
  | None => html
  end.

Definition subHtml (p : Policy) : list FinanceItem :=
  fold_left appendFinance (Object_entries (allFinance p)) [].

Definition instHtml (p : Policy) : list jsstring :=
  match other p with
  | Some o => o
  | None => []
  end.

Definition openModal (policyId : jsstring) (app : App) : App :=
  match find (fun x => str_eqb (id x) policyId) (globalPolicies app) with
  | None => app
  | Some p =>
      let d := set_modal (dom app)
                 (JStr (title p))
                 (or_fallback (targetHtml p)
                    (lit "No specific quantitative targets found."))
                 (or_fallback (subHtml p)
                    (lit "No specific financial instruments found."))
                 (or_fallback (instHtml p) (lit "None.")) in
      with_dom app (set_overlay_hidden d false)
  end.

Definition closeModal (app : App) : App :=
  with_dom app (set_overlay_hidden (dom app) true).

(** ** initDashboard and the event handlers *)

(** The successful run of [initDashboard] on the page as served. *)
Definition initDashboard (StringToNumber : jsstring -> option Z)
    (page : Dom) (data : Data) (chinaGeo : GeoJson) : App :=
  {| dom := renderTable (slice0 (policies data) 50) (renderKPIs data page);
     globalPolicies := policies data;
     mapChart := initMap StringToNumber data chinaGeo;
     timelineChart := initCharts_timeline data;
     instChart := initCharts_inst data |}.

Inductive Event :=
| MapClick (name : jsstring)             (* chart.on('click'): params.name *)
| InstChartClick (elements : list nat)   (* onClick: the indices under the pointer *)
| RowClick (policyId : jsstring)         (* onclick="openModal('<id>')" *)
| CloseClick                             (* the modal's close action *)
| WindowClick (onOverlay : bool).        (* event.target == modal *)

Definition handle (ev : Event) (app : App) : completion App :=
  match ev with
  | MapClick name =>
      if truthy (JStr name) then Normal (filterTableByProvince name app)
      else Normal app
  | InstChartClick [] =>
      Normal (with_dom app (renderTable (slice0 (globalPolicies app) 50) (dom app)))
  | InstChartClick (index :: _) =>
      match nth_error (rawKeys (instChart app)) index with
      | Some rawKey => Normal (filterTableByInstrument rawKey app)
      | None => TypeError            (* undefined.replace *)
      end
  | RowClick policyId => Normal (openModal policyId app)
  | CloseClick => Normal (closeModal app)
  | WindowClick onOverlay =>
      if onOverlay then Normal (closeModal app) else Normal app
  end.

(** ** Vocabulary of the properties *)

(** [Subseq l1 l2]: [l1] is [l2] with some elements left out, the rest in
    their original order. *)
Inductive Subseq (A : Type) : list A -> list A -> Prop :=
| Subseq_nil : Subseq [] []
| Subseq_skip x l1 l2 : Subseq l1 l2 -> Subseq l1 (x :: l2)
| Subseq_take x l1 l2 : Subseq l1 l2 -> Subseq (x :: l1) (x :: l2).

(** [s] contains [pat] as a contiguous run of code units. *)
Definition Contains (s pat : jsstring) : Prop :=
  exists pre post, s = pre ++ pat ++ post.

(** The features of a boundary document ([[]] when it has none). *)
Definition features_list (geoJson : GeoJson) : list Feature :=
  match features geoJson with
  | Some fs => fs
  | None => []
  end.

(** The properties every feature of the sanitized geometry has. *)
Definition Sanitized (StringToNumber : jsstring -> option Z) (f : Feature)
  : Prop :=
  adcode f <> JNum 710000 /\
  loose_eq_number StringToNumber (adcode f) 710000 = false /\
  ~ Contains (name_or_empty f) lit_Taiwan_zh /\
  ~ Contains (name_or_empty f) (lit "Taiwan") /\
  name f <> None /\ name f <> Some [].

(** The table body that shows exactly the records [visible], in order. *)
Definition tbodyOf (visible : list Policy) : Tbody :=
  match visible with
  | [] => NoPoliciesFound
  | _ :: _ => Rows (map renderRow visible)
  end.

(** The display label as the specification words it: underscores become
    spaces, then a leading "fiscal " or "tax " prefix is stripped. *)
Definition spec_stripLeadingPrefix (s : jsstring) : jsstring :=
  if startsWith s (lit "fiscal ") then skipn 7 s
  else if startsWith s (lit "tax ") then skipn 4 s
  else s.

Definition spec_displayLabel (key : jsstring) : jsstring :=
  spec_stripLeadingPrefix (replace_underscores key).

(** Does the modal show this entry of the merged mapping? *)
Definition financeShown (kv : jsstring * option Detail) : bool :=
  match snd kv with
  | Some v => truthy (value v) || truthy (evidence v)
  | None => false
  end.

(** No "fiscal " or "tax " occurs in [s] beyond a leading prefix that
    [displayLabel] removes. *)
Definition noInnerPrefix (s : jsstring) : bool :=
  if startsWith s (lit "fiscal ") then negb (includes (skipn 7 s) (lit "tax "))
  else if startsWith s (lit "tax ") then negb (includes s (lit "fiscal "))
  else negb (includes s (lit "fiscal ")) && negb (includes s (lit "tax ")).

(** Descending by count. *)
Definition countGe (a b : jsstring * Z) : Prop := (snd b <= snd a)%Z.

(** The entries of [l] whose count is [c], in the order of [l]. *)
Definition withCount (c : Z) (l : list (jsstring * Z)) : list (jsstring * Z) :=
  filter (fun e => (snd e =? c)%Z) l.

Definition jsstring_eq_dec (a b : jsstring) : {a = b} + {a <> b} :=
  list_eq_dec N.eq_dec a b.

(** The item the modal shows for entry [k] of the merged mapping: the value,
    or "Yes" when there is none, and the evidence quote when there is one. *)
Definition financeItem (k : jsstring) (v : Detail) : FinanceItem :=
  {| fin_label := replace_underscores k;
     fin_value := if truthy (value v) then value v else JStr (lit "Yes");
     fin_quote := if truthy (evidence v) then Some (evidence v) else None |}.

Definition shownFinance (kv : jsstring * option Detail) : list FinanceItem :=
  match snd kv with
  | Some v => if financeShown kv then [financeItem (fst kv) v] else []
  | None => []
  end.

(** ** A small dataset, used to exercise the properties *)

Definition Shanghai : jsstring := [19978%N; 28023%N; 24066%N].   (* 上海市 *)
Definition Sichuan : jsstring := [22235%N; 24029%N; 30465%N].    (* 四川省 *)

Definition policy_x1 : Policy :=
  {| id := lit "x1";
     title := lit "Hydrogen fuel cell vehicle purchase subsidy scheme";
     province := Shanghai;
     year := JNum 2021;
     instruments := [lit "fiscal_purchase_subsidy"];
     targets := Some [(lit "target_vehicle_count",
                       Some {| value := JNum 5000; evidence := JUndefined |})];
     subsidies := [(lit "fiscal_purchase_subsidy",
                    Some {| value := JUndefined;
                            evidence := JStr (lit "purchase subsidy granted") |});
                   (lit "shared_key",
                    Some {| value := JStr (lit "old"); evidence := JNull |})];
     taxes := [(lit "tax_exemption", None);
               (lit "shared_key",
                Some {| value := JStr (lit "new"); evidence := JNull |})];
     rd := [(lit "rd_grant", Some {| value := JNum 0; evidence := JStr [] |})];
     other := None |}.

Definition policy_x2 : Policy :=
  {| id := lit "x2";
     title := lit "Hydrogen plan";
     province := Sichuan;
     year := JNum 0;
     instruments := [];
     targets := None;
     subsidies := [];
     taxes := [];
     rd := [];
     other := Some [lit "pilot zone"] |}.

Definition sample_data : Data :=
  {| summary := {| total_policies := JNum 2;
                   top_instrument := lit "fiscal_purchase_subsidy" |};
     provinces := [(Shanghai, {| count := JNum 1; subsidy_intensity := JNum 1 |});
                   (Sichuan, {| count := JNum 1; subsidy_intensity := JNum 0 |})];
     timeline := [{| tl_year := JNum 2021; tl_count := JNum 1 |}];
     global_instruments :=
       [(lit "tax_exemption", 3%Z); (lit "fiscal_operation_subsidy", 5%Z);
        (lit "rd_grant", 3%Z); (lit "fiscal_purchase_subsidy", 7%Z);
        (lit "land_use_right", 3%Z); (lit "a", 1%Z); (lit "b", 1%Z);
        (lit "c", 1%Z); (lit "d", 1%Z); (lit "e", 1%Z)];
     policies := [policy_x1; policy_x2] |}.

(** A dataset with an instrument code that has "tax" in the middle. *)
Definition land_tax_data : Data :=
  {| summary := summary sample_data;
     provinces := provinces sample_data;
     timeline := timeline sample_data;
     global_instruments := [(lit "land_tax_relief", 3%Z)];
     policies := policies sample_data |}.

(** A dataset whose precomputed summary counts more policies than the
    [policies] array carries. *)
Definition summary_only_data : Data :=
  {| summary := {| total_policies := JNum 120;
                   top_instrument := lit "fiscal_purchase_subsidy" |};
     provinces := provinces sample_data;
     timeline := timeline sample_data;
     global_instruments := global_instruments sample_data;
     policies := policies sample_data |}.

Definition sample_geo : GeoJson :=
  {| features :=
       Some [ {| name := Some Shanghai; adcode := JNum 310000 |};
              {| name := Some [21488%N; 28286%N; 30465%N];       (* 台湾省 *)
                 adcode := JNum 710000 |};
              {| name := Some Sichuan; adcode := JNum 510000 |};
              {| name := Some []; adcode := JStr (lit "100000_JD") |} ] |}.

(** The page as served: empty slots, the modal overlay hidden. *)
Definition sample_page : Dom :=
  {| kpi_total := JStr (lit "-"); kpi_top_inst := JStr (lit "-");
     kpi_provinces := JStr (lit "-");
     table_heading := JStr (lit "Evidence Locker");
     policy_tbody := Rows [];
     modal_title := JStr []; modal_targets := Items [];
     modal_subsidies := Items []; modal_instruments := Items [];
     overlay_hidden := true |}.

(** A StringToNumber for the sample: its only [adcode] string, "100000_JD",
    is not numeric. *)
Definition sample_StringToNumber (s : jsstring) : option Z := None.

Definition sample_app : App :=
  initDashboard sample_StringToNumber sample_page sample_data sample_geo.

(** The sample page with the collection replaced by one record. *)
Definition app_of_record (p : Policy) : App :=
  initDashboard sample_StringToNumber sample_page
    {| summary := summary sample_data;
       provinces := provinces sample_data;
       timeline := timeline sample_data;
       global_instruments := global_instruments sample_data;
       policies := [p] |}
    sample_geo.

(** ** The markup of the table

    [renderTable] assigns to [innerHTML] the text its template produces.
    The fields of a [Row] are the values the template splices in; they go
    into the text as they are, without escaping. *)

Definition dquote : code_unit := 34%N.
Definition newline : code_unit := 10%N.

Fixpoint uint_units (d : Decimal.uint) : jsstring :=
  match d with
  | Decimal.Nil => []
  | Decimal.D0 d' => 48%N :: uint_units d'
  | Decimal.D1 d' => 49%N :: uint_units d'
  | Decimal.D2 d' => 50%N :: uint_units d'
  | Decimal.D3 d' => 51%N :: uint_units d'
  | Decimal.D4 d' => 52%N :: uint_units d'
  | Decimal.D5 d' => 53%N :: uint_units d'
  | Decimal.D6 d' => 54%N :: uint_units d'
  | Decimal.D7 d' => 55%N :: uint_units d'
  | Decimal.D8 d' => 56%N :: uint_units d'
  | Decimal.D9 d' => 57%N :: uint_units d'
  end.

(** ToString of a value spliced into a template.  A number prints in plain
    decimal, as JavaScript prints every integer of magnitude below 10^21. *)
Definition ToString (v : jsval) : jsstring :=
  match v with
  | JUndefined => lit "undefined"
  | JNull => lit "null"
  | JBool true => lit "true"
  | JBool false => lit "false"
  | JNum Z0 => lit "0"
  | JNum (Zpos n) => uint_units (Pos.to_uint n)
  | JNum (Zneg n) => lit "-" ++ uint_units (Pos.to_uint n)
  | JStr s => s
  end.

(** [parts.join(sep)]. *)
Fixpoint join (sep : jsstring) (parts : list jsstring) : jsstring :=
  match parts with
  | [] => []
  | x :: rest =>
      match rest with
      | [] => x
      | _ :: _ => x ++ sep ++ join sep rest
      end
  end.

Definition indent (n : nat) : jsstring := repeat space n.

(** [<span class="tag">...</span>]. *)
Definition tagSpan (tag : jsstring) : jsstring :=
  lit "<span class=" ++ [dquote] ++ lit "tag" ++ [dquote] ++ lit ">" ++
  tag ++ lit "</span>".

(** The handler text of a row: [openModal('<id>')]. *)
Definition onclickAttr (r : Row) : jsstring :=
  lit "openModal('" ++ row_onclick r ++ lit "')".

(** [<td title="<title>"><title cell></td>] (app.js 236). *)
Definition titleTd (r : Row) : jsstring :=
  lit "<td title=" ++ [dquote] ++ row_title_attr r ++ [dquote] ++ lit ">" ++
  row_title_text r ++ lit "</td>".

(** The text of the row template (app.js 234-241). *)
Definition rowHtml (r : Row) : jsstring :=
  [newline] ++ indent 8 ++
    lit "<tr onclick=" ++ [dquote] ++ onclickAttr r ++ [dquote] ++ lit ">" ++
  [newline] ++ indent 12 ++ titleTd r ++
  [newline] ++ indent 12 ++ lit "<td>" ++ row_province r ++ lit "</td>" ++
  [newline] ++ indent 12 ++ lit "<td>" ++ ToString (row_year r) ++ lit "</td>" ++
  [newline] ++ indent 12 ++
    lit "<td>" ++ join [space] (map tagSpan (row_tags r)) ++ lit "</td>" ++
  [newline] ++ indent 8 ++ lit "</tr>" ++
  [newline] ++ indent 4.

(** The text assigned to [tbody.innerHTML]. *)
Definition innerHTML (b : Tbody) : jsstring :=
  match b with
  | NoPoliciesFound =>
      lit "<tr><td colspan=" ++ [dquote] ++ lit "4" ++ [dquote] ++
      lit " style=" ++ [dquote] ++ lit "text-align:center;" ++ [dquote] ++
      lit ">No policies found matching filter.</td></tr>"
  | Rows rows => concat (map rowHtml rows)
  end.

(** What an HTML parser reads as the value of a double-quoted attribute:
    the text up to the next quotation mark (character references aside). *)
Fixpoint upto_dquote (s : jsstring) : jsstring :=
  match s with
  | [] => []
  | c :: s' => if N.eqb c dquote then [] else c :: upto_dquote s'
  end.

(** An id made of ASCII letters, digits, [_] and [-] only.  For such an id
    the handler text [openModal('<id>')] is a call of [openModal] with the
    id itself; an id with a quote, a backslash or a line break gives a text
    that is no such call. *)
Definition plain_unit (c : code_unit) : bool :=
  (N.leb 48 c && N.leb c 57) || (N.leb 65 c && N.leb c 90) ||
  (N.leb 97 c && N.leb c 122) || N.eqb c 95 || N.eqb c 45.

Definition plain_id (s : jsstring) : bool := forallb plain_unit s.

(** ** The event loop and the vocabulary of the further properties *)

(** One turn of the event loop.  A TypeError thrown by a handler is caught
    by nobody: the turn ends and the page stays as it was, since the only
    throwing expression, [rawKey.replace], is evaluated before the first
    write of its handler. *)
Definition step (app : App) (ev : Event) : App :=
  match handle ev app with
  | Normal app' => app'
  | TypeError => app
  end.

(** The page after a sequence of user events. *)
Definition run (evs : list Event) (app : App) : App := fold_left step evs app.

(** The selection a page is in, as the specification names it. *)
Inductive Selection :=
| Unfiltered
| ByProvince (name : jsstring)
| ByInstrument (code : jsstring).

(** The records a selection makes visible. *)
Definition view (sel : Selection) (collection : list Policy) : list Policy :=
  match sel with
  | Unfiltered => firstn 50 collection
  | ByProvince name => filter (fun p => str_eqb (province p) name) collection
  | ByInstrument code =>
      filter (fun p => arr_includes (instruments p) code) collection
  end.

(** The selection an event leaves, given the codes behind the chart bars. *)
Definition select (keys : list jsstring) (sel : Selection) (ev : Event)
  : Selection :=
  match ev with
  | MapClick [] => sel
  | MapClick (c :: name) => ByProvince (c :: name)
  | InstChartClick [] => Unfiltered
  | InstChartClick (index :: _) =>
      match nth_error keys index with
      | Some key => ByInstrument key
      | None => sel
      end
  | RowClick _ | CloseClick | WindowClick _ => sel
  end.

Definition selectionAfter (keys : list jsstring) (evs : list Event) : Selection :=
  fold_left (select keys) evs Unfiltered.

(** The table heading an event leaves: only a filter that runs writes
    it. *)
Definition headingAfter (keys : list jsstring) (h : jsval) (ev : Event) : jsval :=
  match ev with
  | MapClick (c :: name) => JStr (lit "Policies in: " ++ c :: name)
  | InstChartClick (index :: _) =>
      match nth_error keys index with
      | Some key => JStr (lit "Policies using: " ++ replace_underscores key)
      | None => h
      end
  | MapClick [] | InstChartClick [] | RowClick _ | CloseClick | WindowClick _ => h
  end.

(** The rows a table body displays (none for the placeholder). *)
Definition rows_of (b : Tbody) : list Row :=
  match b with
  | NoPoliciesFound => []
  | Rows rows => rows
  end.

(** The item the modal shows for a target with a value. *)
Definition targetItem (k : jsstring) (v : Detail) : TargetItem :=
  {| tgt_label := replace_underscores (replace k (lit "target_") []);
     tgt_value := value v;
     tgt_unit := if includes k (lit "vehicle") then lit "Vehicles" else [];
     tgt_quote := if truthy (evidence v) then Some (evidence v) else None |}.

Definition shownTarget (kv : jsstring * option Detail) : list TargetItem :=
  match snd kv with
  | Some v => if truthy (value v) then [targetItem (fst kv) v] else []
  | None => []
  end.

(** The entries of a record's [targets] ([[]] when the field is absent). *)
Definition target_entries (p : Policy) : list (jsstring * option Detail) :=
  match targets p with
  | Some t => Object_entries t
  | None => []
  end.

(** [k] is an array index. *)
Definition isIndex (k : jsstring) : bool :=
  match array_index k with
  | Some _ => true
  | None => false
  end.

(** Enumeration order of keys: array indices first, ascending from [lo],
    then only keys that are not array indices. *)
Fixpoint ordered_from (lo : N) (ks : list jsstring) : Prop :=
  match ks with
  | [] => True
  | k :: ks' =>
      match array_index k with
      | Some m => (lo <= m)%N /\ ordered_from m ks'
      | None => Forall (fun k' => array_index k' = None) ks'
      end
  end.

(** A record whose title has quotation marks: Hydrogen "pilot" plan. *)
Definition policy_quoted : Policy :=
  {| id := lit "x4";
     title := lit "Hydrogen " ++ [dquote] ++ lit "pilot" ++ [dquote] ++ lit " plan";
     province := Sichuan;
     year := JNum 2023;
     instruments := [lit "fiscal_purchase_subsidy"];
     targets := None;
     subsidies := [];
     taxes := [];
     rd := [];
     other := None |}.

(** A record whose only financial entry has the value 0 and no evidence. *)
Definition policy_zero_value : Policy :=
  {| id := lit "x5";
     title := lit "Zero grant";
     province := Sichuan;
     year := JNum 2023;
     instruments := [];
     targets := None;
     subsidies := [(lit "grant", Some {| value := JNum 0; evidence := JUndefined |})];
     taxes := [];
     rd := [];
     other := None |}.

(** "Has a value" as the specification words it: the [value] field is
    present (neither undefined nor null). *)
Definition spec_hasValue (v : Detail) : bool :=
  match value v with
  | JUndefined | JNull => false
  | JBool _ | JNum _ | JStr _ => true
  end.

(** A record whose financial mappings have an array-index key. *)
Definition policy_index_key : Policy :=
  {| id := lit "x3";
     title := lit "Index keys";
     province := Sichuan;
     year := JNum 2022;
     instruments := [];
     targets := None;
     subsidies := [(lit "b", Some {| value := JNum 1; evidence := JNull |})];
     taxes := [(lit "1", Some {| value := JNum 2; evidence := JNull |})];
     rd := [(lit "a", Some {| value := JNum 3; evidence := JNull |})];
     other := None |}.

(* ===================================================================== *)
(** * Strings and arrays *)
(* ===================================================================== *)

Unset Implicit Arguments.

Lemma str_eqb_eq (a b : jsstring) : str_eqb a b = true <-> a = b.
Proof.
  revert b; induction a as [|x a IH]; intros [|y b]; simpl;
    try (split; [discriminate | discriminate]); try tauto.
  rewrite andb_true_iff, N.eqb_eq, IH.
  split; [intros [-> ->]; reflexivity | intros H; inversion H; auto].
Qed.

Lemma str_eqb_refl (a : jsstring) : str_eqb a a = true.
Proof. apply str_eqb_eq; reflexivity. Qed.

Lemma str_eqb_neq (a b : jsstring) : str_eqb a b = false <-> a <> b.
Proof.
  rewrite <- str_eqb_eq. destruct (str_eqb a b); split; congruence.
Qed.

Lemma startsWith_app (pat post : jsstring) : startsWith (pat ++ post) pat = true.
Proof.
  induction pat as [|p pat IH]; simpl; [reflexivity|].
  rewrite N.eqb_refl; exact IH.
Qed.

Lemma startsWith_spec (s pat : jsstring) :
  startsWith s pat = true <-> exists post, s = pat ++ post.
Proof.
  split.
  - revert s; induction pat as [|p pat IH]; intros s H.
    + exists s; reflexivity.
    + destruct s as [|c s]; simpl in H; [discriminate|].
      apply andb_true_iff in H; destruct H as [Hc Hs].
      apply N.eqb_eq in Hc; subst c.
      destruct (IH _ Hs) as [post ->]; exists post; reflexivity.
  - intros [post ->]; apply startsWith_app.
Qed.

Lemma startsWith_skipn (s pat : jsstring) :
  startsWith s pat = true -> s = pat ++ skipn (length pat) s.
Proof.
  intros H; apply startsWith_spec in H; destruct H as [post ->].
  rewrite skipn_app, skipn_all, Nat.sub_diag; reflexivity.
Qed.

Lemma includes_unfold (s pat : jsstring) :
  includes s pat =
  startsWith s pat || match s with [] => false | _ :: s' => includes s' pat end.
Proof. destruct s; reflexivity. Qed.

Lemma includes_spec (s pat : jsstring) :
  includes s pat = true <-> Contains s pat.
Proof.
  unfold Contains; split.
  - induction s as [|c s IH]; rewrite includes_unfold, orb_true_iff; intros [H|H].
    + apply startsWith_spec in H; destruct H as [post ->]; exists [], post; reflexivity.
    + discriminate.
    + apply startsWith_spec in H; destruct H as [post ->]; exists [], post; reflexivity.
    + destruct (IH H) as (pre & post & ->); exists (c :: pre), post; reflexivity.
  - intros (pre & post & ->).
    induction pre as [|c pre IH].
    + rewrite includes_unfold; simpl app; rewrite startsWith_app; reflexivity.
    + simpl; rewrite IH; apply orb_true_r.
Qed.

Lemma includes_false_startsWith (s pat : jsstring) :
  includes s pat = false -> startsWith s pat = false.
Proof.
  rewrite includes_unfold; intros H; apply orb_false_iff in H; tauto.
Qed.

Lemma replace_unfold (s pat rep : jsstring) :
  replace s pat rep =
  if startsWith s pat then rep ++ skipn (length pat) s
  else match s with [] => [] | c :: s' => c :: replace s' pat rep end.
Proof. destruct s; reflexivity. Qed.

Lemma replace_prefix (pat post rep : jsstring) :
  replace (pat ++ post) pat rep = rep ++ post.
Proof.
  rewrite replace_unfold, startsWith_app.
  rewrite skipn_app, skipn_all, Nat.sub_diag; reflexivity.
Qed.

Lemma replace_absent (s pat rep : jsstring) :
  includes s pat = false -> replace s pat rep = s.
Proof.
  induction s as [|c s IH]; rewrite includes_unfold, replace_unfold; intros H;
    apply orb_false_iff in H; destruct H as [H1 H2]; rewrite H1.
  - reflexivity.
  - rewrite (IH H2); reflexivity.
Qed.

Lemma arr_includes_In (arr : list jsstring) (x : jsstring) :
  arr_includes arr x = true <-> In x arr.
Proof.
  unfold arr_includes; rewrite existsb_exists; split.
  - intros (y & Hy & E); apply str_eqb_eq in E; subst; exact Hy.
  - intros H; exists x; split; [exact H | apply str_eqb_refl].
Qed.

Lemma filter_Subseq (A : Type) (f : A -> bool) (l : list A) :
  Subseq (filter f l) l.
Proof.
  induction l as [|x l IH]; simpl; [constructor|].
  destruct (f x); constructor; exact IH.
Qed.

Lemma filter_idem (A : Type) (f : A -> bool) (l : list A) :
  filter f (filter f l) = filter f l.
Proof.
  induction l as [|x l IH]; simpl; [reflexivity|].
  destruct (f x) eqn:E; simpl; [rewrite E, IH|]; auto.
Qed.

(* ===================================================================== *)
(** * Geometry sanitizer *)
(* ===================================================================== *)

Section SanitizerFacts.
Variable StringToNumber : jsstring -> option Z.

Lemma keepFeature_inv (f : Feature) :
  keepFeature StringToNumber f = true ->
  includes (name_or_empty f) lit_Taiwan_zh = false /\
  includes (name_or_empty f) (lit "Taiwan") = false /\
  loose_eq_number StringToNumber (adcode f) 710000 = false /\
  name_or_empty f <> [].
Proof.
  unfold keepFeature.
  destruct (includes (name_or_empty f) lit_Taiwan_zh);
    [cbn [orb]; discriminate|].
  destruct (includes (name_or_empty f) (lit "Taiwan"));
    [cbn [orb]; discriminate|].
  destruct (loose_eq_number StringToNumber (adcode f) 710000);
    [cbn [orb]; discriminate|].
  destruct (str_eqb (name_or_empty f) []) eqn:E; [cbn [orb]; discriminate|].
  intros _; repeat (split; [reflexivity|]); apply str_eqb_neq; exact E.
Qed.

Lemma keepFeature_intro (f : Feature) :
  includes (name_or_empty f) lit_Taiwan_zh = false ->
  includes (name_or_empty f) (lit "Taiwan") = false ->
  loose_eq_number StringToNumber (adcode f) 710000 = false ->
  name_or_empty f <> [] ->
  keepFeature StringToNumber f = true.
Proof.
  unfold keepFeature; intros -> -> -> H; cbn [orb].
  apply str_eqb_neq in H; rewrite H; reflexivity.
Qed.

Lemma loose_eq_number_JNum (n : Z) :
  loose_eq_number StringToNumber (JNum n) n = true.
Proof. simpl; apply Z.eqb_refl. Qed.

Lemma features_list_filterFeatures (geoJson : GeoJson) :
  features_list (filterFeatures StringToNumber geoJson) =
  filter (keepFeature StringToNumber) (features_list geoJson).
Proof.
  unfold filterFeatures, features_list.
  destruct (features geoJson) as [fs|] eqn:E; simpl; [reflexivity|].
  rewrite E; reflexivity.
Qed.

Lemma keepFeature_Sanitized (f : Feature) :
  keepFeature StringToNumber f = true -> Sanitized StringToNumber f.
Proof.
  intros H; apply keepFeature_inv in H; destruct H as (Hzh & Hen & Hcode & Hname).
  unfold Sanitized; repeat split.
  - intros E; rewrite E, loose_eq_number_JNum in Hcode; discriminate.
  - exact Hcode.
  - intros C; apply includes_spec in C; congruence.
  - intros C; apply includes_spec in C; congruence.
  - intros E; apply Hname; unfold name_or_empty; rewrite E; reflexivity.
  - intros E; apply Hname; unfold name_or_empty; rewrite E; reflexivity.
Qed.

(** C5. Whatever the boundary document, the features that [initMap] leaves
    in it satisfy: the administrative code is not 710000 (as a number, and
    more generally not loosely equal to it), the name contains neither
    "台湾" nor "Taiwan", and the name is present and not empty.  The
    surviving features are a subsequence of the input (relative order
    kept), and [initMap] registers exactly this filtered document. *)
Theorem sanitizer_output (data : Data) (geoJson : GeoJson) :
  let out := features_list (filterFeatures StringToNumber geoJson) in
  Forall (Sanitized StringToNumber) out /\
  Subseq out (features_list geoJson) /\
  out = filter (keepFeature StringToNumber) (features_list geoJson) /\
  registeredMap (initMap StringToNumber data geoJson) =
    filterFeatures StringToNumber geoJson.
Proof.
  cbv zeta; rewrite features_list_filterFeatures; repeat split.
  - apply Forall_forall; intros f Hf; apply filter_In in Hf.
    apply keepFeature_Sanitized; tauto.
  - apply filter_Subseq.
Qed.

(** C9. Filtering the boundary geometry is idempotent: applying the filter
    of [initMap] to its own output returns that output. *)
Theorem sanitizer_idempotent (geoJson : GeoJson) :
  filterFeatures StringToNumber (filterFeatures StringToNumber geoJson) =
  filterFeatures StringToNumber geoJson.
Proof.
  unfold filterFeatures.
  destruct (features geoJson) as [fs|] eqn:E; simpl.
  - rewrite filter_idem; reflexivity.
  - rewrite E; reflexivity.
Qed.

End SanitizerFacts.

Example sanitizer_sample :
  features_list (registeredMap (mapChart sample_app)) =
  [ {| name := Some Shanghai; adcode := JNum 310000 |};
    {| name := Some Sichuan; adcode := JNum 510000 |} ].
Proof. reflexivity. Qed.

(* ===================================================================== *)
(** * Table: rendering and the two filters *)
(* ===================================================================== *)

Lemma policy_tbody_renderTable (ps : list Policy) (d : Dom) :
  policy_tbody (renderTable ps d) = tbodyOf ps.
Proof. destruct ps; reflexivity. Qed.

Lemma renderTable_twice (ps qs : list Policy) (d : Dom) :
  renderTable ps (renderTable qs d) = renderTable ps d.
Proof. destruct ps, qs; reflexivity. Qed.

Lemma renderTable_heading (ps : list Policy) (d : Dom) (h h' : jsval) :
  renderTable ps (set_table_heading (renderTable ps (set_table_heading d h')) h) =
  renderTable ps (set_table_heading d h).
Proof. destruct ps; reflexivity. Qed.

Lemma table_heading_renderTable (ps : list Policy) (d : Dom) :
  table_heading (renderTable ps d) = table_heading d.
Proof. destruct ps; reflexivity. Qed.

Lemma renderTable_rows (ps : list Policy) (d : Dom) :
  ps <> [] -> policy_tbody (renderTable ps d) = Rows (map renderRow ps).
Proof. destruct ps; [intros H; destruct (H eq_refl) | reflexivity]. Qed.

Lemma tbodyOf_nil_iff (ps : list Policy) : tbodyOf ps = NoPoliciesFound <-> ps = [].
Proof. destruct ps; simpl; split; intros H; try discriminate; reflexivity. Qed.

Lemma filter_nil_iff (A : Type) (f : A -> bool) (l : list A) :
  filter f l = [] <-> forall x, In x l -> f x = false.
Proof.
  induction l as [|a l IH]; simpl.
  - split; [intros _ x [] | reflexivity].
  - destruct (f a) eqn:E; split.
    + discriminate.
    + intros H; rewrite (H a (or_introl eq_refl)) in E; discriminate.
    + intros H x [<-|Hx]; [exact E | apply IH; assumption].
    + intros H; apply IH; intros x Hx; apply H; right; exact Hx.
Qed.

(** C1. [filterTableByProvince P] shows exactly the records of the
    collection whose [province] equals [P] (string equality), in collection
    order; selecting [P] a second time changes nothing; the chart click that
    clears the selection shows again the first 50 records of the collection,
    which is the table [initDashboard] renders. *)
Theorem select_province (StringToNumber : jsstring -> option Z)
    (page : Dom) (data : Data) (chinaGeo : GeoJson) (app : App) (P : jsstring) :
  let visible :=
    filter (fun p => str_eqb (province p) P) (globalPolicies app) in
  let selected := filterTableByProvince P app in
  let loaded := initDashboard StringToNumber page data chinaGeo in
  policy_tbody (dom selected) = tbodyOf visible /\
  (forall p, In p visible <-> In p (globalPolicies app) /\ province p = P) /\
  Subseq visible (globalPolicies app) /\
  globalPolicies selected = globalPolicies app /\
  filterTableByProvince P selected = selected /\
  (exists cleared,
      handle (InstChartClick []) selected = Normal cleared /\
      policy_tbody (dom cleared) = tbodyOf (firstn 50 (globalPolicies app)) /\
      globalPolicies cleared = globalPolicies app) /\
  globalPolicies loaded = policies data /\
  policy_tbody (dom loaded) = tbodyOf (firstn 50 (policies data)).
Proof.
  cbv zeta.
  split; [|split; [|split; [|split; [|split; [|split; [|split]]]]]].
  - unfold filterTableByProvince; simpl; apply policy_tbody_renderTable.
  - intros p; rewrite filter_In, str_eqb_eq; reflexivity.
  - apply filter_Subseq.
  - reflexivity.
  - unfold filterTableByProvince, with_dom; simpl.
    rewrite renderTable_heading; reflexivity.
  - eexists; split; [reflexivity|]; split; [|reflexivity].
    simpl; apply policy_tbody_renderTable.
  - reflexivity.
  - simpl; apply policy_tbody_renderTable.
Qed.

(** The clear path re-renders the table only: the heading written by the
    last filter stays. *)
Remark clear_keeps_heading (app : App) (P : jsstring) :
  handle (InstChartClick []) (filterTableByProvince P app) =
  Normal (with_dom (filterTableByProvince P app)
            (renderTable (firstn 50 (globalPolicies app))
                         (dom (filterTableByProvince P app)))) /\
  table_heading
    (renderTable (firstn 50 (globalPolicies app))
                 (dom (filterTableByProvince P app))) =
  JStr (lit "Policies in: " ++ P).
Proof.
  split; [reflexivity|].
  rewrite table_heading_renderTable; unfold filterTableByProvince.
  cbn [dom with_dom]; rewrite table_heading_renderTable; reflexivity.
Qed.

(** C2. [filterTableByInstrument C] shows exactly the records whose
    [instruments] array has [C] as an element, in collection order; when no
    record has it, the result is the empty sequence and the table shows the
    placeholder row; the call returns normally in every case. *)
Theorem select_instrument (app : App) (C : jsstring) :
  let visible :=
    filter (fun p => arr_includes (instruments p) C) (globalPolicies app) in
  let selected := filterTableByInstrument C app in
  policy_tbody (dom selected) = tbodyOf visible /\
  (forall p, In p visible <-> In p (globalPolicies app) /\ In C (instruments p)) /\
  Subseq visible (globalPolicies app) /\
  globalPolicies selected = globalPolicies app /\
  ((forall p, In p (globalPolicies app) -> ~ In C (instruments p)) ->
   visible = [] /\ policy_tbody (dom selected) = NoPoliciesFound).
Proof.
  cbv zeta.
  assert (Hbody : policy_tbody (dom (filterTableByInstrument C app)) =
                  tbodyOf (filter (fun p => arr_includes (instruments p) C)
                                  (globalPolicies app))).
  { unfold filterTableByInstrument; simpl; apply policy_tbody_renderTable. }
  split; [exact Hbody|]; split; [|split; [|split]].
  - intros p; rewrite filter_In, arr_includes_In; reflexivity.
  - apply filter_Subseq.
  - reflexivity.
  - intros Hnone.
    assert (E : filter (fun p => arr_includes (instruments p) C)
                       (globalPolicies app) = []).
    { apply filter_nil_iff; intros p Hp.
      destruct (arr_includes (instruments p) C) eqn:Ei; [|reflexivity].
      apply arr_includes_In in Ei; destruct (Hnone p Hp Ei). }
    split; [exact E|]. rewrite Hbody, E; reflexivity.
Qed.

(** The scenario of the specification: the record x1 is found through its
    own instrument code, and a code no record carries gives the
    placeholder. *)
Lemma select_instrument_witness :
  (forall p, In p (globalPolicies sample_app) ->
             ~ In (lit "tax_exemption") (instruments p)) /\
  filter (fun p => arr_includes (instruments p) (lit "tax_exemption"))
         (globalPolicies sample_app) = [] /\
  policy_tbody (dom (filterTableByInstrument (lit "tax_exemption") sample_app)) =
    NoPoliciesFound.
Proof.
  assert (H : forall p, In p (globalPolicies sample_app) ->
                        ~ In (lit "tax_exemption") (instruments p)).
  { intros p Hp HC; vm_compute in Hp.
    destruct Hp as [<-|[<-|[]]]; vm_compute in HC.
    - destruct HC as [E|[]]; discriminate E.
    - exact HC. }
  split; [exact H|].
  exact (proj2 (proj2 (proj2 (proj2
           (select_instrument sample_app (lit "tax_exemption"))))) H).
Defined.

Example select_instrument_x1 :
  policy_tbody (dom (filterTableByInstrument (lit "fiscal_purchase_subsidy")
                       sample_app)) = Rows [renderRow policy_x1].
Proof. reflexivity. Qed.

(** Membership, not prefix: "fiscal" is a prefix of x1's only code and
    selects nothing. *)
Example select_instrument_prefix :
  policy_tbody (dom (filterTableByInstrument (lit "fiscal") sample_app)) =
  NoPoliciesFound.
Proof. reflexivity. Qed.

(** The texts the row template receives for the title: for a title longer
    than 35 code units the cell text is its first 35 code units followed by
    "...", 38 in all; for a title of at most 35 it is the title; in no case
    is it longer than 38; the text for the [title] attribute is the full
    title.  (Both are spliced into the markup unescaped.) *)
Theorem title_cell (p : Policy) :
  row_title_attr (renderRow p) = title p /\
  (35 < length (title p) ->
   row_title_text (renderRow p) = firstn 35 (title p) ++ lit "..." /\
   length (row_title_text (renderRow p)) = 38) /\
  (length (title p) <= 35 -> row_title_text (renderRow p) = title p) /\
  length (row_title_text (renderRow p)) <= 38.
Proof.
  assert (Hlong : 35 < length (title p) ->
                  length (firstn 35 (title p) ++ lit "...") = 38).
  { intros H; rewrite length_app, length_firstn.
    change (length (lit "...")) with 3; lia. }
  simpl; unfold titleCell, substring0.
  split; [reflexivity|]; split; [|split].
  - intros H. apply Nat.ltb_lt in H as Hb; rewrite Hb.
    split; [reflexivity | apply Hlong; exact H].
  - intros H. destruct (35 <? length (title p)) eqn:Hb; [|reflexivity].
    apply Nat.ltb_lt in Hb; lia.
  - destruct (35 <? length (title p)) eqn:Hb.
    + apply Nat.ltb_lt in Hb; rewrite (Hlong Hb); lia.
    + apply Nat.ltb_ge in Hb; lia.
Qed.

Lemma title_cell_witness :
  35 < length (title policy_x1) /\
  row_title_text (renderRow policy_x1) =
    lit "Hydrogen fuel cell vehicle purchase..." /\
  length (row_title_text (renderRow policy_x1)) = 38 /\
  length (title policy_x2) <= 35 /\
  row_title_text (renderRow policy_x2) = lit "Hydrogen plan".
Proof.
  assert (H1 : 35 < length (title policy_x1)) by (vm_compute; lia).
  assert (H2 : length (title policy_x2) <= 35) by (vm_compute; lia).
  split; [exact H1|].
  destruct (proj1 (proj2 (title_cell policy_x1)) H1) as [E L].
  split; [exact E|]; split; [exact L|]; split; [exact H2|].
  exact (proj1 (proj2 (proj2 (title_cell policy_x2))) H2).
Defined.

(** C8 (defect of the code). The row is to keep the full title as its hover
    text and to show the title, truncated, in its cell.  The template
    splices the title into the markup without escaping.  For the title
    Hydrogen "pilot" plan the text assigned to [innerHTML] carries the
    title's own quotation marks inside the double-quoted [title] attribute:
    the attribute ends at the first of them and the hover text is cut
    there. *)
Theorem title_markup_unescaped :
  policy_tbody (dom (app_of_record policy_quoted)) = Rows [renderRow policy_quoted] /\
  innerHTML (policy_tbody (dom (app_of_record policy_quoted))) =
    rowHtml (renderRow policy_quoted) /\
  In dquote (row_title_attr (renderRow policy_quoted)) /\
  titleTd (renderRow policy_quoted) =
    lit "<td title=" ++ [dquote] ++
      lit "Hydrogen " ++ [dquote] ++ lit "pilot" ++ [dquote] ++ lit " plan" ++
    [dquote] ++ lit ">" ++
      lit "Hydrogen " ++ [dquote] ++ lit "pilot" ++ [dquote] ++ lit " plan" ++
    lit "</td>".
Proof.
  split; [reflexivity|]; split; [vm_compute; reflexivity|].
  split; [vm_compute; tauto | reflexivity].
Qed.

Lemma upto_dquote_plain (s rest : jsstring) :
  ~ In dquote s -> upto_dquote (s ++ [dquote] ++ rest) = s.
Proof.
  induction s as [|c s IH]; simpl; intros Hno.
  - reflexivity.
  - destruct (N.eqb c dquote) eqn:E.
    + apply N.eqb_eq in E; destruct Hno; left; exact E.
    + f_equal; apply IH; intros H; apply Hno; right; exact H.
Qed.

(** Read back as an HTML parser reads a double-quoted attribute, the hover
    text of that row is Hydrogen followed by a space; a title without a
    quotation mark is read back whole. *)
Remark hover_text_cut_at_quote :
  upto_dquote (row_title_attr (renderRow policy_quoted) ++ [dquote] ++ lit ">") =
    lit "Hydrogen " /\
  upto_dquote (row_title_attr (renderRow policy_quoted) ++ [dquote] ++ lit ">") <>
    title policy_quoted /\
  upto_dquote (row_title_attr (renderRow policy_x1) ++ [dquote] ++ lit ">") =
    title policy_x1.
Proof.
  split; [reflexivity|]; split; [intros E; vm_compute in E; discriminate E|].
  reflexivity.
Qed.

(** C10. The year cell is [p.year || '-']: a falsy year (absent, null, 0,
    the empty string, false) gives the placeholder "-", so a record whose
    year is the number 0 shows "-"; a truthy year is shown as it is. *)
Theorem year_cell (p : Policy) :
  (truthy (year p) = false -> row_year (renderRow p) = JStr (lit "-")) /\
  (year p = JNum 0 -> row_year (renderRow p) = JStr (lit "-")) /\
  (truthy (year p) = true -> row_year (renderRow p) = year p).
Proof.
  simpl; unfold js_or; split; [|split].
  - intros ->; reflexivity.
  - intros ->; reflexivity.
  - intros ->; reflexivity.
Qed.

Lemma year_cell_witness :
  truthy (year policy_x2) = false /\
  year policy_x2 = JNum 0 /\
  row_year (renderRow policy_x2) = JStr (lit "-") /\
  truthy (year policy_x1) = true /\
  row_year (renderRow policy_x1) = JNum 2021.
Proof.
  split; [reflexivity|]; split; [reflexivity|]; split.
  - exact (proj1 (proj2 (year_cell policy_x2)) eq_refl).
  - split; [reflexivity|].
    exact (proj2 (proj2 (year_cell policy_x1)) eq_refl).
Defined.

(* ===================================================================== *)
(** * Modal *)
(* ===================================================================== *)

Lemma find_none_iff (A : Type) (f : A -> bool) (l : list A) :
  find f l = None <-> forall x, In x l -> f x = false.
Proof.
  induction l as [|a l IH]; simpl.
  - split; [intros _ x [] | reflexivity].
  - destruct (f a) eqn:E; split.
    + discriminate.
    + intros H; rewrite (H a (or_introl eq_refl)) in E; discriminate.
    + intros H x [<-|Hx]; [exact E | apply IH; assumption].
    + intros H; apply IH; intros x Hx; apply H; right; exact Hx.
Qed.

(** C7. Opening the modal for an id that no record of the collection has
    returns normally and leaves the whole page state as it was: no modal
    slot is written and the overlay keeps its [hidden] class. *)
Theorem openModal_unknown_id (app : App) (policyId : jsstring) :
  (forall p, In p (globalPolicies app) -> id p <> policyId) ->
  openModal policyId app = app /\
  handle (RowClick policyId) app = Normal app /\
  overlay_hidden (dom (openModal policyId app)) = overlay_hidden (dom app).
Proof.
  intros Hmiss.
  assert (E : openModal policyId app = app).
  { unfold openModal.
    replace (find (fun x => str_eqb (id x) policyId) (globalPolicies app))
      with (@None Policy); [reflexivity|].
    symmetry; apply find_none_iff; intros x Hx.
    apply str_eqb_neq, Hmiss, Hx. }
  split; [exact E|]; split; [simpl; rewrite E; reflexivity|].
  rewrite E; reflexivity.
Qed.

Lemma openModal_unknown_id_witness :
  (forall p, In p (globalPolicies sample_app) -> id p <> lit "x9") /\
  openModal (lit "x9") sample_app = sample_app /\
  handle (RowClick (lit "x9")) sample_app = Normal sample_app /\
  overlay_hidden (dom (openModal (lit "x9") sample_app)) = true.
Proof.
  assert (H : forall p, In p (globalPolicies sample_app) -> id p <> lit "x9").
  { intros p Hp; vm_compute in Hp.
    destruct Hp as [<-|[<-|[]]]; vm_compute; intros E; discriminate E. }
  split; [exact H|].
  destruct (openModal_unknown_id sample_app (lit "x9") H) as (E1 & E2 & E3).
  split; [exact E1|]; split; [exact E2|].
  rewrite E3; reflexivity.
Defined.

(** A known id does open the modal. *)
Example openModal_x1 :
  overlay_hidden (dom (openModal (lit "x1") sample_app)) = false /\
  modal_title (dom (openModal (lit "x1") sample_app)) = JStr (title policy_x1).
Proof. split; reflexivity. Qed.

(* ===================================================================== *)
(** * KPIs *)
(* ===================================================================== *)

Lemma nodup_NoDup_id (l : list jsstring) :
  NoDup l -> nodup jsstring_eq_dec l = l.
Proof. apply nodup_fixed_point. Qed.

(** C4 (as amended). The total slot shows the summary's precomputed
    [total_policies] field, whatever the length of the [policies] array; it
    is the size of the collection when the summary records that size.  The
    top-instrument slot shows the summary's [top_instrument] with every
    underscore turned into a space, and the province slot shows the number
    of distinct keys of the [provinces] mapping. *)
Theorem kpi_projection (data : Data) (page : Dom) :
  wf_obj (provinces data) ->
  let d := renderKPIs data page in
  kpi_total d = total_policies (summary data) /\
  (total_policies (summary data) = JNum (Z.of_nat (length (policies data))) ->
   kpi_total d = JNum (Z.of_nat (length (policies data)))) /\
  kpi_top_inst d =
    JStr (map (fun c => if N.eqb c underscore then space else c)
              (top_instrument (summary data))) /\
  kpi_provinces d =
    JNum (Z.of_nat (length (nodup jsstring_eq_dec
                              (Object_keys (provinces data))))).
Proof.
  intros Hwf; cbv zeta; simpl.
  split; [reflexivity|]; split; [intros ->; reflexivity|].
  split; [reflexivity|].
  rewrite (nodup_NoDup_id _ Hwf); reflexivity.
Qed.

Lemma kpi_projection_witness :
  wf_obj (provinces sample_data) /\
  total_policies (summary sample_data) =
    JNum (Z.of_nat (length (policies sample_data))) /\
  kpi_total (renderKPIs sample_data sample_page) = JNum 2 /\
  kpi_top_inst (renderKPIs sample_data sample_page) =
    JStr (lit "fiscal purchase subsidy") /\
  kpi_provinces (renderKPIs sample_data sample_page) = JNum 2.
Proof.
  assert (Hwf : wf_obj (provinces sample_data)).
  { unfold wf_obj; simpl.
    constructor; [intros [E|[]]; discriminate E|].
    constructor; [intros []|constructor]. }
  split; [exact Hwf|]; split; [reflexivity|].
  destruct (kpi_projection sample_data sample_page Hwf) as (_ & E2 & E3 & E4).
  split; [exact (E2 eq_refl)|]; split; [exact E3 | exact E4].
Defined.

(** C4 as first stated fails: the total slot does not show the size of the
    policy collection when the summary disagrees with it. *)
Lemma kpi_total_counterexample :
  kpi_total (renderKPIs summary_only_data sample_page) = JNum 120 /\
  kpi_total (renderKPIs summary_only_data sample_page) <>
    JNum (Z.of_nat (length (policies summary_only_data))).
Proof. split; [reflexivity | intros E; discriminate E]. Qed.

(* ===================================================================== *)
(** * Objects as mappings *)
(* ===================================================================== *)

Section ObjectFacts.
Variable V : Type.
Implicit Types (o src target : jsobj V) (k : jsstring) (v : V).

Lemma obj_get_None o k : obj_get o k = None <-> ~ In k (Object_keys o).
Proof.
  induction o as [|[k' v'] o IH]; simpl.
  - tauto.
  - destruct (str_eqb k' k) eqn:E.
    + apply str_eqb_eq in E; split; [discriminate | tauto].
    + apply str_eqb_neq in E; rewrite IH; tauto.
Qed.

Lemma obj_get_In o k v : obj_get o k = Some v -> In (k, v) o.
Proof.
  induction o as [|[k' v'] o IH]; simpl; [discriminate|].
  destruct (str_eqb k' k) eqn:E.
  - apply str_eqb_eq in E; intros [= ->]; subst; left; reflexivity.
  - intros H; right; apply IH; exact H.
Qed.

Lemma In_obj_get o k v : wf_obj o -> In (k, v) o -> obj_get o k = Some v.
Proof.
  unfold wf_obj; induction o as [|[k' v'] o IH]; simpl; [tauto|].
  intros Hwf; apply NoDup_cons_iff in Hwf; destruct Hwf as [Hk Hwf].
  intros [[= -> ->]|Hin].
  - rewrite str_eqb_refl; reflexivity.
  - destruct (str_eqb k' k) eqn:E; [|apply IH; assumption].
    apply str_eqb_eq in E; subst k'.
    exfalso; apply Hk; apply (in_map fst) in Hin; exact Hin.
Qed.

Lemma has_key_In o k : has_key o k = true <-> In k (Object_keys o).
Proof.
  unfold has_key; rewrite existsb_exists; split.
  - intros (k' & Hin & E); apply str_eqb_eq in E; subst; exact Hin.
  - intros H; exists k; split; [exact H | apply str_eqb_refl].
Qed.

Lemma has_key_false o k : has_key o k = false <-> ~ In k (Object_keys o).
Proof.
  rewrite <- has_key_In; destruct (has_key o k); split; congruence.
Qed.

Lemma keys_obj_update o k v : Object_keys (obj_update o k v) = Object_keys o.
Proof.
  induction o as [|[k' v'] o IH]; simpl; [reflexivity|].
  destruct (str_eqb k' k); simpl; [reflexivity | rewrite IH; reflexivity].
Qed.

Lemma obj_get_update_eq o k v :
  In k (Object_keys o) -> obj_get (obj_update o k v) k = Some v.
Proof.
  induction o as [|[k' v'] o IH]; simpl; [tauto|].
  destruct (str_eqb k' k) eqn:E; simpl; rewrite E; [reflexivity|].
  apply str_eqb_neq in E; intros [H|H]; [destruct (E H) | apply IH, H].
Qed.

Lemma obj_get_update_neq o k k0 v :
  k <> k0 -> obj_get (obj_update o k v) k0 = obj_get o k0.
Proof.
  intros Hne; induction o as [|[k' v'] o IH]; simpl; [reflexivity|].
  destruct (str_eqb k' k) eqn:E; simpl.
  - apply str_eqb_eq in E; subst k'.
    apply str_eqb_neq in Hne; rewrite Hne; reflexivity.
  - rewrite IH; reflexivity.
Qed.

Lemma keys_obj_insert_index o n k v k0 :
  In k0 (Object_keys (obj_insert_index o n k v)) <->
  k0 = k \/ In k0 (Object_keys o).
Proof.
  induction o as [|[k' v'] o IH]; simpl; [intuition|].
  destruct (array_index k') as [m|]; [destruct (N.ltb m n)|]; simpl;
    rewrite ?IH; intuition.
Qed.

Lemma obj_get_insert_index_eq o n k v :
  ~ In k (Object_keys o) -> obj_get (obj_insert_index o n k v) k = Some v.
Proof.
  induction o as [|[k' v'] o IH]; simpl; intros Hk.
  - rewrite str_eqb_refl; reflexivity.
  - destruct (array_index k') as [m|]; [destruct (N.ltb m n)|]; simpl;
      rewrite ?str_eqb_refl; try reflexivity.
    destruct (str_eqb k' k) eqn:E;
      [apply str_eqb_eq in E; destruct Hk; left; exact E|].
    apply IH; intros H; apply Hk; right; exact H.
Qed.

Lemma obj_get_insert_index_neq o n k k0 v :
  k <> k0 -> obj_get (obj_insert_index o n k v) k0 = obj_get o k0.
Proof.
  intros Hne; apply str_eqb_neq in Hne.
  induction o as [|[k' v'] o IH]; simpl; [rewrite Hne; reflexivity|].
  destruct (array_index k') as [m|]; [destruct (N.ltb m n)|]; simpl;
    rewrite ?Hne, ?IH; reflexivity.
Qed.

Lemma wf_obj_insert_index o n k v :
  wf_obj o -> ~ In k (Object_keys o) -> wf_obj (obj_insert_index o n k v).
Proof.
  unfold wf_obj; induction o as [|[k' v'] o IH]; simpl; intros Hwf Hk.
  - constructor; [intros [] | constructor].
  - destruct (array_index k') as [m|]; [destruct (N.ltb m n)|]; simpl;
      try (constructor; [exact Hk | exact Hwf]).
    apply NoDup_cons_iff in Hwf; destruct Hwf as [Hk' Hwf].
    constructor; [|apply IH; [exact Hwf | tauto]].
    intros Hin; apply keys_obj_insert_index in Hin; destruct Hin as [->|Hin];
      [apply Hk; left; reflexivity | exact (Hk' Hin)].
Qed.

Lemma obj_get_app_new o k v :
  ~ In k (Object_keys o) -> obj_get (o ++ [(k, v)]) k = Some v.
Proof.
  induction o as [|[k' v'] o IH]; simpl; intros Hk.
  - rewrite str_eqb_refl; reflexivity.
  - destruct (str_eqb k' k) eqn:E;
      [apply str_eqb_eq in E; destruct Hk; left; exact E|].
    apply IH; intros H; apply Hk; right; exact H.
Qed.

Lemma obj_get_app_other o k k0 v :
  k <> k0 -> obj_get (o ++ [(k, v)]) k0 = obj_get o k0.
Proof.
  intros Hne; apply str_eqb_neq in Hne.
  induction o as [|[k' v'] o IH]; simpl; [rewrite Hne; reflexivity|].
  rewrite IH; reflexivity.
Qed.

Lemma obj_get_set_eq o k v : obj_get (obj_set o k v) k = Some v.
Proof.
  unfold obj_set; destruct (has_key o k) eqn:E.
  - apply obj_get_update_eq, has_key_In, E.
  - apply has_key_false in E.
    destruct (array_index k);
      [apply obj_get_insert_index_eq | apply obj_get_app_new]; exact E.
Qed.

Lemma obj_get_set_neq o k k0 v :
  k <> k0 -> obj_get (obj_set o k v) k0 = obj_get o k0.
Proof.
  intros Hne; unfold obj_set; destruct (has_key o k).
  - apply obj_get_update_neq, Hne.
  - destruct (array_index k);
      [apply obj_get_insert_index_neq | apply obj_get_app_other]; exact Hne.
Qed.

Lemma keys_obj_set o k v k0 :
  In k0 (Object_keys (obj_set o k v)) <-> k0 = k \/ In k0 (Object_keys o).
Proof.
  unfold obj_set; destruct (has_key o k) eqn:E.
  - apply has_key_In in E; rewrite keys_obj_update.
    split; [tauto | intros [->|H]; assumption].
  - destruct (array_index k); [apply keys_obj_insert_index|].
    unfold Object_keys; rewrite map_app, in_app_iff; simpl; intuition.
Qed.

Lemma wf_obj_set o k v : wf_obj o -> wf_obj (obj_set o k v).
Proof.
  intros Hwf; unfold obj_set; destruct (has_key o k) eqn:E.
  - unfold wf_obj; rewrite keys_obj_update; exact Hwf.
  - apply has_key_false in E.
    destruct (array_index k); [apply wf_obj_insert_index; assumption|].
    unfold wf_obj, Object_keys in *; rewrite map_app; simpl.
    apply NoDup_app; [exact Hwf | constructor; [intros []|constructor] |].
    intros x Hx [<-|[]]; exact (E Hx).
Qed.

Lemma wf_spread target src : wf_obj target -> wf_obj (spread target src).
Proof.
  unfold spread; revert target.
  induction src as [|[k v] src IH]; simpl; intros target Hwf; [exact Hwf|].
  apply IH, wf_obj_set, Hwf.
Qed.

(** Spreading gives the last writer the key: the source's value when the
    source has the key, the target's otherwise. *)
Lemma obj_get_spread target src k :
  wf_obj src ->
  obj_get (spread target src) k =
  match obj_get src k with
  | Some v => Some v
  | None => obj_get target k
  end.
Proof.
  unfold spread, wf_obj; revert target.
  induction src as [|[k0 v0] src IH]; simpl; intros target Hwf; [reflexivity|].
  apply NoDup_cons_iff in Hwf; destruct Hwf as [Hk Hwf].
  rewrite (IH _ Hwf).
  destruct (str_eqb k0 k) eqn:E.
  - apply str_eqb_eq in E; subst k0.
    apply obj_get_None in Hk; rewrite Hk; apply obj_get_set_eq.
  - apply str_eqb_neq in E.
    destruct (obj_get src k); [reflexivity | apply obj_get_set_neq; exact E].
Qed.

Lemma keys_spread target src k :
  In k (Object_keys (spread target src)) <->
  In k (Object_keys target) \/ In k (Object_keys src).
Proof.
  unfold spread; revert target.
  induction src as [|[k0 v0] src IH]; simpl; intros target; [tauto|].
  rewrite IH, keys_obj_set; intuition.
Qed.

End ObjectFacts.

Lemma wf_obj_nil (V : Type) : wf_obj (@nil (jsstring * V)).
Proof. constructor. Qed.

(** [forEach] with [subHtml += ...] visits the entries in order and adds an
    item for each shown entry. *)
Lemma fold_left_appendFinance (entries : jsobj (option Detail))
    (html : list FinanceItem) :
  fold_left appendFinance entries html = html ++ flat_map shownFinance entries.
Proof.
  revert html; induction entries as [|[k ov] es IH]; simpl; intros html.
  - rewrite app_nil_r; reflexivity.
  - rewrite IH; unfold appendFinance, shownFinance, financeShown; simpl.
    destruct ov as [v|]; [|reflexivity].
    unfold js_or, financeItem, evidenceQuote.
    destruct (truthy (value v)) eqn:Ev; simpl.
    + rewrite Ev, <- app_assoc; reflexivity.
    + destruct (truthy (evidence v)) eqn:Ee; simpl.
      * rewrite <- app_assoc; reflexivity.
      * reflexivity.
Qed.

Lemma subHtml_flat_map (p : Policy) :
  subHtml p = flat_map shownFinance (allFinance p).
Proof. unfold subHtml, Object_entries; apply fold_left_appendFinance. Qed.

Lemma wf_allFinance (p : Policy) : wf_obj (allFinance p).
Proof.
  unfold allFinance; repeat apply wf_spread; apply wf_obj_nil.
Qed.

(** C6 (as amended). For the record the modal shows, the financial block is
    built from the merge of [subsidies], [taxes] and [rd]: a key of the
    merge is a key of one of the three, and its value is that of the last of
    them having the key ([rd], else [taxes], else [subsidies]).  Each entry
    of the merge contributes, in enumeration order, one item when its value
    or its evidence is truthy and none otherwise, so an entry whose value is
    0 (or the empty string, or false) and whose evidence is missing is not
    shown although it has a value; the item shows the value when it is
    truthy and "Yes" otherwise. *)
Theorem modal_finance_block (app : App) (p : Policy) :
  wf_obj (subsidies p) -> wf_obj (taxes p) -> wf_obj (rd p) ->
  find (fun x => str_eqb (id x) (id p)) (globalPolicies app) = Some p ->
  modal_subsidies (dom (openModal (id p) app)) =
    or_fallback (flat_map shownFinance (allFinance p))
                (lit "No specific financial instruments found.") /\
  (forall k, obj_get (allFinance p) k =
             match obj_get (rd p) k with
             | Some v => Some v
             | None => match obj_get (taxes p) k with
                       | Some v => Some v
                       | None => obj_get (subsidies p) k
                       end
             end) /\
  (forall k, In k (Object_keys (allFinance p)) <->
             In k (Object_keys (subsidies p)) \/
             In k (Object_keys (taxes p)) \/
             In k (Object_keys (rd p))) /\
  wf_obj (allFinance p) /\
  (forall k, shownFinance (k, None) = []) /\
  (forall k v, truthy (value v) = true \/ truthy (evidence v) = true ->
               shownFinance (k, Some v) = [financeItem k v]) /\
  (forall k v, truthy (value v) = false -> truthy (evidence v) = false ->
               shownFinance (k, Some v) = []) /\
  (forall item, In item (subHtml p) <->
     exists k v, obj_get (allFinance p) k = Some (Some v) /\
                 (truthy (value v) = true \/ truthy (evidence v) = true) /\
                 item = financeItem k v) /\
  (forall k v, truthy (value v) = false -> truthy (evidence v) = true ->
               fin_value (financeItem k v) = JStr (lit "Yes") /\
               fin_quote (financeItem k v) = Some (evidence v)) /\
  (forall k e, truthy e = false ->
               shownFinance (k, Some {| value := JNum 0; evidence := e |}) = []).
Proof.
  intros Hs Ht Hr Hfind.
  split; [|split; [|split; [|split; [|split; [|split; [|split; [|split; [|split]]]]]]]].
  - unfold openModal; rewrite Hfind; simpl.
    rewrite subHtml_flat_map; reflexivity.
  - intros k; unfold allFinance.
    rewrite (obj_get_spread _ _ _ k Hr), (obj_get_spread _ _ _ k Ht),
            (obj_get_spread _ _ _ k Hs).
    simpl; destruct (obj_get (subsidies p) k); reflexivity.
  - intros k; unfold allFinance.
    rewrite !keys_spread; simpl; tauto.
  - apply wf_allFinance.
  - reflexivity.
  - intros k v H; unfold shownFinance, financeShown; simpl.
    destruct H as [-> | ->]; [|rewrite orb_true_r]; reflexivity.
  - intros k v Hv He; unfold shownFinance, financeShown; simpl.
    rewrite Hv, He; reflexivity.
  - intros item; rewrite subHtml_flat_map, in_flat_map; split.
    + intros ([k ov] & Hin & Hitem).
      unfold shownFinance, financeShown in Hitem; simpl in Hitem.
      destruct ov as [v|]; [|destruct Hitem].
      destruct (truthy (value v) || truthy (evidence v)) eqn:E; [|destruct Hitem].
      destruct Hitem as [<-|[]].
      exists k, v; split; [|split; [|reflexivity]].
      * apply In_obj_get; [apply wf_allFinance | exact Hin].
      * apply orb_true_iff; exact E.
    + intros (k & v & Hget & Hshown & ->).
      exists (k, Some v); split; [apply obj_get_In; exact Hget|].
      unfold shownFinance, financeShown; simpl.
      apply orb_true_iff in Hshown; rewrite Hshown; left; reflexivity.
  - intros k v Hv He; unfold financeItem; simpl; rewrite Hv, He; split; reflexivity.
  - intros k e He; unfold shownFinance, financeShown; simpl; rewrite He; reflexivity.
Qed.

Lemma wf_obj_decide (V : Type) (o : jsobj V) :
  nodup jsstring_eq_dec (Object_keys o) = Object_keys o -> wf_obj o.
Proof. intros E; unfold wf_obj; rewrite <- E; apply NoDup_nodup. Qed.

Lemma modal_finance_block_witness :
  wf_obj (subsidies policy_x1) /\ wf_obj (taxes policy_x1) /\
  wf_obj (rd policy_x1) /\
  find (fun x => str_eqb (id x) (id policy_x1)) (globalPolicies sample_app) =
    Some policy_x1 /\
  modal_subsidies (dom (openModal (lit "x1") sample_app)) =
    Items [ {| fin_label := lit "fiscal purchase subsidy";
               fin_value := JStr (lit "Yes");
               fin_quote := Some (JStr (lit "purchase subsidy granted")) |};
            {| fin_label := lit "shared key";
               fin_value := JStr (lit "new");
               fin_quote := None |} ] /\
  obj_get (allFinance policy_x1) (lit "shared_key") =
    Some (Some {| value := JStr (lit "new"); evidence := JNull |}).
Proof.
  assert (Hs : wf_obj (subsidies policy_x1)) by (apply wf_obj_decide; reflexivity).
  assert (Ht : wf_obj (taxes policy_x1)) by (apply wf_obj_decide; reflexivity).
  assert (Hr : wf_obj (rd policy_x1)) by (apply wf_obj_decide; reflexivity).
  assert (Hf : find (fun x => str_eqb (id x) (id policy_x1))
                    (globalPolicies sample_app) = Some policy_x1)
    by reflexivity.
  split; [exact Hs|]; split; [exact Ht|]; split; [exact Hr|]; split; [exact Hf|].
  destruct (modal_finance_block sample_app policy_x1 Hs Ht Hr Hf)
    as (Eblock & Eget & _).
  split.
  - exact Eblock.
  - rewrite (Eget (lit "shared_key")); reflexivity.
Defined.

(** C6 as first stated fails: the entry "grant" of this record has a value,
    the number 0, and no evidence; the modal shows no item for it and the
    block falls back to its empty-state message. *)
Lemma finance_zero_value_counterexample :
  obj_get (allFinance policy_zero_value) (lit "grant") =
    Some (Some {| value := JNum 0; evidence := JUndefined |}) /\
  spec_hasValue {| value := JNum 0; evidence := JUndefined |} = true /\
  subHtml policy_zero_value = [] /\
  modal_subsidies (dom (openModal (lit "x5") (app_of_record policy_zero_value))) =
    Fallback (lit "No specific financial instruments found.").
Proof. repeat split. Qed.

(* ===================================================================== *)
(** * Sorting *)
(* ===================================================================== *)

Section SortFacts.
Variable A : Type.
Variable key : A -> Z.

Let cmp (a b : A) : Z := (key b - key a)%Z.
Let geK (a b : A) : Prop := (key b <= key a)%Z.
Let sameKey (c : Z) (l : list A) : list A := filter (fun e => (key e =? c)%Z) l.

Lemma sort_insert_perm (x : A) (l : list A) :
  Permutation (sort_insert cmp x l) (x :: l).
Proof.
  induction l as [|y l IH]; simpl; [reflexivity|].
  destruct (0 <? cmp x y)%Z; [|reflexivity].
  rewrite IH; apply perm_swap.
Qed.

Lemma Array_sort_perm (l : list A) : Permutation (Array_sort cmp l) l.
Proof.
  induction l as [|x l IH]; simpl; [reflexivity|].
  rewrite sort_insert_perm, IH; reflexivity.
Qed.

Lemma sort_insert_sorted (x : A) (l : list A) :
  StronglySorted geK l -> StronglySorted geK (sort_insert cmp x l).
Proof.
  induction l as [|y l IH]; simpl; intros Hs.
  - constructor; constructor.
  - apply StronglySorted_inv in Hs; destruct Hs as [Hs Hy].
    destruct (0 <? cmp x y)%Z eqn:E.
    + apply Z.ltb_lt in E; unfold cmp in E.
      constructor; [apply IH; exact Hs|].
      rewrite sort_insert_perm; constructor; [unfold geK; lia | exact Hy].
    + apply Z.ltb_ge in E; unfold cmp in E.
      constructor; [constructor; assumption|].
      constructor; [unfold geK; lia|].
      eapply Forall_impl; [|exact Hy].
      unfold geK; intros z Hz; lia.
Qed.

Lemma Array_sort_sorted (l : list A) : StronglySorted geK (Array_sort cmp l).
Proof.
  induction l as [|x l IH]; simpl; [constructor|].
  apply sort_insert_sorted, IH.
Qed.

Lemma sort_insert_stable (c : Z) (x : A) (l : list A) :
  sameKey c (sort_insert cmp x l) = sameKey c (x :: l).
Proof.
  unfold sameKey; induction l as [|y l IH]; simpl; [reflexivity|].
  destruct (0 <? cmp x y)%Z eqn:E; simpl; [|reflexivity].
  apply Z.ltb_lt in E; unfold cmp in E.
  rewrite IH; simpl.
  destruct (key x =? c)%Z eqn:Ex, (key y =? c)%Z eqn:Ey; try reflexivity.
  apply Z.eqb_eq in Ex, Ey; lia.
Qed.

Lemma Array_sort_stable (c : Z) (l : list A) :
  sameKey c (Array_sort cmp l) = sameKey c l.
Proof.
  induction l as [|x l IH]; simpl; [reflexivity|].
  rewrite sort_insert_stable; unfold sameKey in *; simpl; rewrite IH; reflexivity.
Qed.

Lemma sameKey_head (x : A) (l : list A) :
  sameKey (key x) (x :: l) = x :: sameKey (key x) l.
Proof. unfold sameKey; simpl; rewrite Z.eqb_refl; reflexivity. Qed.

Lemma sameKey_In (c : Z) (x : A) (l : list A) :
  In x (sameKey c l) <-> In x l /\ key x = c.
Proof. unfold sameKey; rewrite filter_In, Z.eqb_eq; reflexivity. Qed.

(** Two descending lists with the same elements of each key, in the same
    order, are the same list. *)
Lemma sorted_sameKey_eq (l1 l2 : list A) :
  StronglySorted geK l1 -> StronglySorted geK l2 ->
  (forall c, sameKey c l1 = sameKey c l2) -> l1 = l2.
Proof.
  revert l2; induction l1 as [|a l1 IH]; intros [|b l2] H1 H2 Hk.
  - reflexivity.
  - specialize (Hk (key b)); rewrite sameKey_head in Hk; discriminate.
  - specialize (Hk (key a)); rewrite sameKey_head in Hk; discriminate.
  - apply StronglySorted_inv in H1; destruct H1 as [H1 Ha].
    apply StronglySorted_inv in H2; destruct H2 as [H2 Hb].
    rewrite Forall_forall in Ha, Hb.
    assert (Hab : (key b <= key a)%Z).
    { assert (Hin : In b (a :: l1)).
      { apply (sameKey_In (key b)); rewrite Hk, sameKey_head; left; reflexivity. }
      destruct Hin as [->|Hin]; [lia | exact (Ha _ Hin)]. }
    assert (Hba : (key a <= key b)%Z).
    { assert (Hin : In a (b :: l2)).
      { apply (sameKey_In (key a)); rewrite <- Hk, sameKey_head; left; reflexivity. }
      destruct Hin as [->|Hin]; [lia | exact (Hb _ Hin)]. }
    assert (Ek : key a = key b) by lia.
    assert (Eab : a = b).
    { specialize (Hk (key a)); rewrite sameKey_head in Hk.
      rewrite Ek, sameKey_head in Hk; congruence. }
    subst b; f_equal; apply IH; try assumption.
    intros c; specialize (Hk c); unfold sameKey in *; simpl in Hk.
    destruct (key a =? c)%Z; congruence.
Qed.

(** Every stable descending arrangement of [l] is the one [Array_sort]
    computes. *)
Lemma stable_sort_unique (l l' : list A) :
  StronglySorted geK l' -> (forall c, sameKey c l' = sameKey c l) ->
  l' = Array_sort cmp l.
Proof.
  intros Hs Hk; apply sorted_sameKey_eq; [exact Hs | apply Array_sort_sorted|].
  intros c; rewrite Hk, Array_sort_stable; reflexivity.
Qed.

End SortFacts.

(* ===================================================================== *)
(** * Instrument ranking *)
(* ===================================================================== *)

Lemma displayLabel_agrees (key : jsstring) :
  noInnerPrefix (replace_underscores key) = true ->
  displayLabel key = spec_displayLabel key.
Proof.
  unfold noInnerPrefix, displayLabel, spec_displayLabel, spec_stripLeadingPrefix.
  generalize (replace_underscores key); intros s.
  destruct (startsWith s (lit "fiscal ")) eqn:Ef.
  - intros H; apply negb_true_iff in H.
    rewrite (replace_unfold s), Ef.
    change (length (lit "fiscal ")) with 7; simpl app.
    apply replace_absent; exact H.
  - destruct (startsWith s (lit "tax ")) eqn:Et.
    + intros H; apply negb_true_iff in H.
      rewrite (replace_absent s _ _ H), replace_unfold, Et; reflexivity.
    + intros H; apply andb_true_iff in H; destruct H as [H1 H2].
      apply negb_true_iff in H1, H2.
      rewrite (replace_absent s _ _ H1); apply replace_absent; exact H2.
Qed.

Lemma firstn_length_le8 (A : Type) (l : list A) : length (firstn 8 l) <= 8.
Proof. rewrite length_firstn; lia. Qed.

(** What the instrument chart does deliver.  The chart ranks the entries
    of [global_instruments] by count, descending, entries of equal count
    staying in the mapping's order (and this arrangement is the only stable
    descending one), and keeps the first 8.  At every position the chart
    holds the untransformed code in [rawKeys], its count, and a label
    computed from that code; a click on the bar at a position filters the
    table by the code stored there, so by the untransformed code.  The
    label is the code with underscores turned into spaces and the leading
    "fiscal " or "tax " stripped, for every code in which "fiscal " and
    "tax " occur nowhere else. *)
Theorem instrument_rank_series (data : Data) (app : App) :
  instChart app = initCharts_inst data ->
  let entries := Object_entries (global_instruments data) in
  let ranked := Array_sort byCountDesc entries in
  (Permutation ranked entries /\
   StronglySorted countGe ranked /\
   (forall c, withCount c ranked = withCount c entries) /\
   (forall l', StronglySorted countGe l' ->
               (forall c, withCount c l' = withCount c entries) ->
               l' = ranked)) /\
  (sortedInst data = firstn 8 ranked /\ length (sortedInst data) <= 8) /\
  (rawKeys (instChart app) = map fst (sortedInst data) /\
   dataset_data (instChart app) = map snd (sortedInst data) /\
   labels (instChart app) = map displayLabel (rawKeys (instChart app))) /\
  (forall index rest key,
      nth_error (rawKeys (instChart app)) index = Some key ->
      handle (InstChartClick (index :: rest)) app =
        Normal (filterTableByInstrument key app) /\
      policy_tbody (dom (filterTableByInstrument key app)) =
        tbodyOf (filter (fun p => arr_includes (instruments p) key)
                        (globalPolicies app))) /\
  (forall key, noInnerPrefix (replace_underscores key) = true ->
               displayLabel key = spec_displayLabel key).
Proof.
  intros Hchart; cbv zeta.
  split; [|split; [|split; [|split]]].
  - split; [|split; [|split]].
    + apply (Array_sort_perm _ snd).
    + apply (Array_sort_sorted _ snd).
    + intros c; apply (Array_sort_stable _ snd).
    + intros l' Hs Hk; apply (stable_sort_unique _ snd); assumption.
  - split; [reflexivity | apply firstn_length_le8].
  - rewrite Hchart; simpl; split; [reflexivity|]; split; [reflexivity|].
    rewrite map_map; reflexivity.
  - intros index rest key Hnth; split.
    + simpl; rewrite Hnth; reflexivity.
    + unfold filterTableByInstrument; simpl; apply policy_tbody_renderTable.
  - apply displayLabel_agrees.
Qed.

Lemma instrument_rank_series_witness :
  instChart sample_app = initCharts_inst sample_data /\
  rawKeys (instChart sample_app) =
    [lit "fiscal_purchase_subsidy"; lit "fiscal_operation_subsidy";
     lit "tax_exemption"; lit "rd_grant"; lit "land_use_right";
     lit "a"; lit "b"; lit "c"] /\
  labels (instChart sample_app) =
    [lit "purchase subsidy"; lit "operation subsidy";
     lit "exemption"; lit "rd grant"; lit "land use right";
     lit "a"; lit "b"; lit "c"] /\
  dataset_data (instChart sample_app) = [7; 5; 3; 3; 3; 1; 1; 1]%Z /\
  nth_error (rawKeys (instChart sample_app)) 0 =
    Some (lit "fiscal_purchase_subsidy") /\
  handle (InstChartClick [0]) sample_app =
    Normal (filterTableByInstrument (lit "fiscal_purchase_subsidy") sample_app) /\
  noInnerPrefix (replace_underscores (lit "tax_exemption")) = true /\
  displayLabel (lit "tax_exemption") = lit "exemption".
Proof.
  assert (Hc : instChart sample_app = initCharts_inst sample_data) by reflexivity.
  assert (Hn : nth_error (rawKeys (instChart sample_app)) 0 =
               Some (lit "fiscal_purchase_subsidy")) by reflexivity.
  assert (Hp : noInnerPrefix (replace_underscores (lit "tax_exemption")) = true)
    by reflexivity.
  destruct (instrument_rank_series sample_data sample_app Hc)
    as (_ & _ & (Ek & Ed & El) & Hclick & Hlabel).
  split; [exact Hc|]; split; [exact Ek|]; split.
  - rewrite El, Ek; reflexivity.
  - split; [exact Ed|]; split; [exact Hn|]; split.
    + exact (proj1 (Hclick 0 [] _ Hn)).
    + split; [exact Hp|]. rewrite (Hlabel _ Hp); reflexivity.
Defined.

(** C3 (defect of the code). The display label is to be the code with
    underscores turned into spaces and a leading "fiscal " or "tax "
    stripped.  The code "land_tax_relief" has no such prefix, so its label
    is to be "land tax relief"; [String.replace] with a string pattern
    removes the first "tax " wherever it stands, and the chart shows
    "land relief". *)
Lemma display_label_counterexample :
  rawKeys (initCharts_inst land_tax_data) = [lit "land_tax_relief"] /\
  labels (initCharts_inst land_tax_data) = [lit "land relief"] /\
  map spec_displayLabel (rawKeys (initCharts_inst land_tax_data)) =
    [lit "land tax relief"] /\
  labels (initCharts_inst land_tax_data) <>
    map spec_displayLabel (rawKeys (initCharts_inst land_tax_data)).
Proof.
  split; [reflexivity|]; split; [reflexivity|]; split; [reflexivity|].
  intros E; vm_compute in E; discriminate E.
Qed.

(* ===================================================================== *)
(** * Further properties: the map *)
(* ===================================================================== *)

Lemma not_Contains_includes (s pat : jsstring) :
  ~ Contains s pat <-> includes s pat = false.
Proof.
  rewrite <- includes_spec; destruct (includes s pat); split; congruence.
Qed.

(** X1. The sanitizer removes nothing else: a feature is in the filtered
    geometry exactly when it is in the input, its name contains neither
    marker and is not empty, and its code is not loosely equal to 710000.
    In particular a feature with a clean name and a numeric code other than
    710000 always survives. *)
Theorem sanitizer_exact (StringToNumber : jsstring -> option Z)
    (geoJson : GeoJson) (f : Feature) :
  (In f (features_list (filterFeatures StringToNumber geoJson)) <->
   In f (features_list geoJson) /\
   ~ Contains (name_or_empty f) lit_Taiwan_zh /\
   ~ Contains (name_or_empty f) (lit "Taiwan") /\
   loose_eq_number StringToNumber (adcode f) 710000 = false /\
   name_or_empty f <> []) /\
  (forall n, In f (features_list geoJson) ->
             adcode f = JNum n -> n <> 710000%Z ->
             ~ Contains (name_or_empty f) lit_Taiwan_zh ->
             ~ Contains (name_or_empty f) (lit "Taiwan") ->
             name_or_empty f <> [] ->
             In f (features_list (filterFeatures StringToNumber geoJson))).
Proof.
  rewrite features_list_filterFeatures; split.
  - rewrite filter_In, !not_Contains_includes; split.
    + intros [Hin Hk]; apply keepFeature_inv in Hk; tauto.
    + intros (Hin & H1 & H2 & H3 & H4); split; [exact Hin|].
      apply keepFeature_intro; assumption.
  - intros n Hin Hcode Hn Hzh Hen Hname.
    apply filter_In; split; [exact Hin|].
    apply keepFeature_intro; try (apply not_Contains_includes; assumption);
      [|exact Hname].
    rewrite Hcode; simpl; apply Z.eqb_neq; exact Hn.
Qed.

(** X2. The map series is the join of the [provinces] mapping by name: its
    names are the mapping's keys in order (so they are distinct, and as many
    as the province KPI counts), each datum carries the count and intensity
    the mapping holds for its name, every key has its datum, and a name the
    mapping lacks has none.  The boundary geometry plays no part in it. *)
Theorem map_series_join (StringToNumber : jsstring -> option Z)
    (data : Data) (geoJson : GeoJson) (page : Dom) :
  wf_obj (provinces data) ->
  let series := series_data (initMap StringToNumber data geoJson) in
  map md_name series = Object_keys (provinces data) /\
  NoDup (map md_name series) /\
  kpi_provinces (renderKPIs data page) = JNum (Z.of_nat (length series)) /\
  (forall d, In d series ->
     obj_get (provinces data) (md_name d) =
       Some {| count := md_value d; subsidy_intensity := md_intensity d |}) /\
  (forall k st, obj_get (provinces data) k = Some st ->
     In {| md_name := k; md_value := count st;
           md_intensity := subsidy_intensity st |} series) /\
  (forall k, obj_get (provinces data) k = None -> ~ In k (map md_name series)).
Proof.
  intros Hwf; cbv zeta; simpl; unfold provData, Object_entries.
  assert (Hnames : map md_name
            (map (fun e : jsstring * ProvinceStat =>
                    {| md_name := fst e; md_value := count (snd e);
                       md_intensity := subsidy_intensity (snd e) |})
                 (provinces data)) = Object_keys (provinces data)).
  { unfold Object_keys; rewrite map_map; reflexivity. }
  split; [exact Hnames|]; split; [rewrite Hnames; exact Hwf|].
  split; [rewrite length_map; unfold Object_keys; rewrite length_map; reflexivity|].
  split; [|split].
  - intros d Hd; apply in_map_iff in Hd; destruct Hd as ([k st] & <- & Hin).
    simpl; rewrite (In_obj_get _ _ _ _ Hwf Hin); destruct st; reflexivity.
  - intros k st Hget; apply obj_get_In in Hget.
    apply in_map_iff; exists (k, st); split; [reflexivity | exact Hget].
  - intros k Hnone; rewrite Hnames; apply obj_get_None; exact Hnone.
Qed.

Lemma wf_provinces_sample : wf_obj (provinces sample_data).
Proof. apply wf_obj_decide; reflexivity. Qed.

Lemma map_series_join_witness :
  wf_obj (provinces sample_data) /\
  map md_name (series_data (mapChart sample_app)) = [Shanghai; Sichuan] /\
  obj_get (provinces sample_data) Sichuan =
    Some {| count := JNum 1; subsidy_intensity := JNum 0 |}.
Proof.
  split; [exact wf_provinces_sample|].
  destruct (map_series_join sample_StringToNumber sample_data sample_geo
              sample_page wf_provinces_sample) as (E & _ & _ & Hd & _).
  split; [exact E|].
  exact (Hd {| md_name := Sichuan; md_value := JNum 1; md_intensity := JNum 0 |}
            (or_intror (or_introl eq_refl))).
Defined.

(** X3. Every region left on the registered map can be clicked: its name is
    not empty, so the click handler's guard lets it through and the table is
    filtered by that name. *)
Theorem map_region_clickable (StringToNumber : jsstring -> option Z)
    (page : Dom) (data : Data) (chinaGeo : GeoJson) (f : Feature) (app : App) :
  In f (features_list
          (registeredMap
             (mapChart (initDashboard StringToNumber page data chinaGeo)))) ->
  handle (MapClick (name_or_empty f)) app =
    Normal (filterTableByProvince (name_or_empty f) app) /\
  policy_tbody (dom (filterTableByProvince (name_or_empty f) app)) =
    tbodyOf (filter (fun p => str_eqb (province p) (name_or_empty f))
                    (globalPolicies app)).
Proof.
  simpl; rewrite features_list_filterFeatures; intros Hin.
  apply filter_In in Hin; destruct Hin as [_ Hk].
  apply keepFeature_inv in Hk; destruct Hk as (_ & _ & _ & Hname).
  split.
  - destruct (name_or_empty f); [destruct (Hname eq_refl) | reflexivity].
  - unfold filterTableByProvince; cbn [dom with_dom].
    apply policy_tbody_renderTable.
Qed.

Lemma map_region_clickable_witness :
  In {| name := Some Shanghai; adcode := JNum 310000 |}
     (features_list (registeredMap (mapChart sample_app))) /\
  policy_tbody (dom (filterTableByProvince Shanghai sample_app)) =
    Rows [renderRow policy_x1].
Proof.
  assert (H : In {| name := Some Shanghai; adcode := JNum 310000 |}
                 (features_list (registeredMap (mapChart sample_app))))
    by (left; reflexivity).
  split; [exact H|].
  exact (proj2 (map_region_clickable sample_StringToNumber sample_page
                  sample_data sample_geo _ sample_app H)).
Defined.

(* ===================================================================== *)
(** * Further properties: the table *)
(* ===================================================================== *)

Lemma split_underscore_nonempty (s : jsstring) : split_underscore s <> [].
Proof.
  destruct s as [|c s]; simpl; [discriminate|].
  destruct (N.eqb c underscore); [discriminate|].
  destruct (split_underscore s); discriminate.
Qed.

Lemma last_skip_head (A : Type) (x d : A) (l : list A) :
  l <> [] -> last (x :: l) d = last l d.
Proof. destruct l; [intros H; destruct (H eq_refl) | reflexivity]. Qed.

(** The last segment of [s.split('_')] is what follows the last underscore
    of [s] (all of [s] when it has none). *)
Lemma last_segment_spec (s : jsstring) :
  exists pre,
    s = pre ++ pop (split_underscore s) /\
    (pre = [] <-> tl (split_underscore s) = []) /\
    (pre = [] \/ exists q, pre = q ++ [underscore]) /\
    Forall (fun c => c <> underscore) (pop (split_underscore s)).
Proof.
  unfold pop; induction s as [|c s IH]; simpl.
  - exists []; repeat split; auto.
  - destruct IH as (pre & Hs & Hnil & Hend & Hno).
    destruct (N.eqb c underscore) eqn:E.
    + apply N.eqb_eq in E; subst c.
      rewrite (last_skip_head _ _ _ _ (split_underscore_nonempty s)).
      exists (underscore :: pre); split; [simpl; congruence|].
      split; [split; [discriminate | intros H; destruct (split_underscore_nonempty s H)]|].
      split; [|exact Hno].
      right; destruct Hend as [->|[q ->]];
        [exists [] | exists (underscore :: q)]; reflexivity.
    + apply N.eqb_neq in E.
      destruct (split_underscore s) as [|seg [|seg2 segs]] eqn:Es.
      * destruct (split_underscore_nonempty s Es).
      * simpl in *. assert (pre = []) by (apply Hnil; reflexivity); subst pre.
        exists []; simpl in *; subst s.
        split; [reflexivity|]; split; [tauto|]; split; [left; reflexivity|].
        constructor; assumption.
      * simpl in Hnil.
        destruct Hend as [->|[q ->]];
          [destruct Hnil as [Hnil _]; discriminate (Hnil eq_refl)|].
        exists (c :: q ++ [underscore]); split; [simpl in *; congruence|].
        split; [split; discriminate|].
        split; [right; exists (c :: q); reflexivity | exact Hno].
Qed.

Lemma rows_of_tbodyOf (ps : list Policy) : rows_of (tbodyOf ps) = map renderRow ps.
Proof. destruct ps; reflexivity. Qed.

(** X4. A row carries a tag for each of the first two instrument codes of
    its record and for no other.  The tag is the part of the code after its
    last underscore: the code is some prefix followed by the tag, the prefix
    is empty or ends with an underscore, and the tag has no underscore. *)
Theorem row_tags_last_segment (p : Policy) :
  length (row_tags (renderRow p)) = Nat.min 2 (length (instruments p)) /\
  (forall i code,
      i < 2 -> nth_error (instruments p) i = Some code ->
      exists tag pre,
        nth_error (row_tags (renderRow p)) i = Some tag /\
        code = pre ++ tag /\
        (pre = [] \/ exists q, pre = q ++ [underscore]) /\
        Forall (fun c => c <> underscore) tag).
Proof.
  cbn [row_tags renderRow]; unfold slice0; split.
  - rewrite length_map, length_firstn; reflexivity.
  - intros i code Hi Hnth.
    destruct (last_segment_spec code) as (pre & Hs & _ & Hend & Hno).
    exists (pop (split_underscore code)), pre.
    split; [|split; [exact Hs | split; [exact Hend | exact Hno]]].
    destruct (instruments p) as [|a [|b l]]; destruct i as [|[|i]];
      simpl in *; try discriminate; try lia; congruence.
Qed.

Lemma row_tags_last_segment_witness :
  0 < 2 /\
  nth_error (instruments policy_x1) 0 = Some (lit "fiscal_purchase_subsidy") /\
  row_tags (renderRow policy_x1) = [lit "subsidy"] /\
  exists tag pre,
    nth_error (row_tags (renderRow policy_x1)) 0 = Some tag /\
    lit "fiscal_purchase_subsidy" = pre ++ tag /\
    (pre = [] \/ exists q, pre = q ++ [underscore]) /\
    Forall (fun c => c <> underscore) tag.
Proof.
  split; [lia|]; split; [reflexivity|]; split; [reflexivity|].
  apply (proj2 (row_tags_last_segment policy_x1) 0); [lia | reflexivity].
Defined.

(** X5. The default view is capped and the filtered views are not: the
    table [initDashboard] renders has min(50, n) rows for a collection of
    n records, one per record in order when n is at most 50; a province or
    instrument filter shows one row for every matching record of the whole
    collection, however many, in collection order. *)
Theorem table_row_counts (StringToNumber : jsstring -> option Z)
    (page : Dom) (data : Data) (chinaGeo : GeoJson)
    (app : App) (P C : jsstring) :
  let loaded := initDashboard StringToNumber page data chinaGeo in
  length (rows_of (policy_tbody (dom loaded))) =
    Nat.min 50 (length (policies data)) /\
  (length (policies data) <= 50 ->
   map row_onclick (rows_of (policy_tbody (dom loaded))) =
     map id (policies data)) /\
  map row_onclick (rows_of (policy_tbody (dom (filterTableByProvince P app)))) =
    map id (filter (fun p => str_eqb (province p) P) (globalPolicies app)) /\
  map row_onclick (rows_of (policy_tbody (dom (filterTableByInstrument C app)))) =
    map id (filter (fun p => arr_includes (instruments p) C) (globalPolicies app)).
Proof.
  cbv zeta.
  assert (Hids : forall ps, map row_onclick (rows_of (tbodyOf ps)) = map id ps).
  { intros ps; rewrite rows_of_tbodyOf, map_map; reflexivity. }
  assert (Hload : policy_tbody
                    (dom (initDashboard StringToNumber page data chinaGeo)) =
                  tbodyOf (firstn 50 (policies data))).
  { cbn [dom initDashboard]; apply policy_tbody_renderTable. }
  rewrite Hload; split; [|split; [|split]].
  - rewrite rows_of_tbodyOf, length_map, length_firstn; reflexivity.
  - intros Hle; rewrite Hids, firstn_all2; [reflexivity | exact Hle].
  - unfold filterTableByProvince; cbn [dom with_dom].
    rewrite policy_tbody_renderTable; apply Hids.
  - unfold filterTableByInstrument; cbn [dom with_dom].
    rewrite policy_tbody_renderTable; apply Hids.
Qed.

(* ===================================================================== *)
(** * Further properties: the page under user events *)
(* ===================================================================== *)

Lemma renderTable_set (ps : list Policy) (d : Dom) :
  renderTable ps d = set_policy_tbody d (tbodyOf ps).
Proof. destruct ps; reflexivity. Qed.

Lemma renderTable_absorb (fs ps : list Policy) (d : Dom) (h : jsval) :
  renderTable fs (set_table_heading (renderTable ps d) h) =
  renderTable fs (set_table_heading d h).
Proof. destruct fs, ps; reflexivity. Qed.

Lemma renderTable_absorb_heading (fs : list Policy) (d : Dom) (h h' : jsval) :
  renderTable fs (set_table_heading (set_table_heading d h') h) =
  renderTable fs (set_table_heading d h).
Proof. destruct fs; reflexivity. Qed.

Lemma filterTableByProvince_dom (P : jsstring) (app : App) :
  dom (filterTableByProvince P app) =
  renderTable (filter (fun p => str_eqb (province p) P) (globalPolicies app))
    (set_table_heading (dom app) (JStr (lit "Policies in: " ++ P))).
Proof. reflexivity. Qed.

Lemma filterTableByInstrument_dom (C : jsstring) (app : App) :
  dom (filterTableByInstrument C app) =
  renderTable (filter (fun p => arr_includes (instruments p) C)
                      (globalPolicies app))
    (set_table_heading (dom app)
       (JStr (lit "Policies using: " ++ replace_underscores C))).
Proof. reflexivity. Qed.

Lemma App_eq (a b : App) :
  dom a = dom b -> globalPolicies a = globalPolicies b ->
  mapChart a = mapChart b -> timelineChart a = timelineChart b ->
  instChart a = instChart b -> a = b.
Proof. destruct a, b; simpl; intros; subst; reflexivity. Qed.

(** What no handler writes: the collection, the three charts, the KPIs. *)
Lemma step_frame (app : App) (ev : Event) :
  globalPolicies (step app ev) = globalPolicies app /\
  mapChart (step app ev) = mapChart app /\
  timelineChart (step app ev) = timelineChart app /\
  instChart (step app ev) = instChart app /\
  kpi_total (dom (step app ev)) = kpi_total (dom app) /\
  kpi_top_inst (dom (step app ev)) = kpi_top_inst (dom app) /\
  kpi_provinces (dom (step app ev)) = kpi_provinces (dom app).
Proof.
  unfold step; destruct ev as [nm | els | pid | | onOverlay]; cbn [handle].
  - destruct (truthy (JStr nm)); [|repeat split].
    rewrite filterTableByProvince_dom, renderTable_set; repeat split.
  - destruct els as [|index rest].
    + cbn [dom with_dom globalPolicies mapChart timelineChart instChart].
      rewrite renderTable_set; repeat split.
    + destruct (nth_error (rawKeys (instChart app)) index); [|repeat split].
      rewrite filterTableByInstrument_dom, renderTable_set; repeat split.
  - unfold openModal.
    destruct (find (fun x => str_eqb (id x) pid) (globalPolicies app));
      repeat split.
  - repeat split.
  - destruct onOverlay; repeat split.
Qed.

Lemma run_cons (ev : Event) (evs : list Event) (app : App) :
  run (ev :: evs) app = run evs (step app ev).
Proof. reflexivity. Qed.

Lemma run_frame (evs : list Event) (app : App) :
  globalPolicies (run evs app) = globalPolicies app /\
  mapChart (run evs app) = mapChart app /\
  timelineChart (run evs app) = timelineChart app /\
  instChart (run evs app) = instChart app /\
  kpi_total (dom (run evs app)) = kpi_total (dom app) /\
  kpi_top_inst (dom (run evs app)) = kpi_top_inst (dom app) /\
  kpi_provinces (dom (run evs app)) = kpi_provinces (dom app).
Proof.
  revert app; induction evs as [|ev evs IH]; intros app; [repeat split|].
  rewrite run_cons.
  destruct (IH (step app ev)) as (E1 & E2 & E3 & E4 & E5 & E6 & E7).
  destruct (step_frame app ev) as (F1 & F2 & F3 & F4 & F5 & F6 & F7).
  repeat split; congruence.
Qed.

(** X6. The collection and the chart data are read-only after load, and
    the KPIs are written once: after any sequence of user events the page
    still holds the loaded policy collection, the same map, timeline and
    instrument-chart data, and the three KPI values [renderKPIs] wrote. *)
Theorem data_read_only_after_load (StringToNumber : jsstring -> option Z)
    (page : Dom) (data : Data) (chinaGeo : GeoJson) (evs : list Event) :
  let loaded := initDashboard StringToNumber page data chinaGeo in
  globalPolicies (run evs loaded) = policies data /\
  mapChart (run evs loaded) = initMap StringToNumber data chinaGeo /\
  timelineChart (run evs loaded) = initCharts_timeline data /\
  instChart (run evs loaded) = initCharts_inst data /\
  kpi_total (dom (run evs loaded)) = total_policies (summary data) /\
  kpi_top_inst (dom (run evs loaded)) =
    JStr (replace_underscores (top_instrument (summary data))) /\
  kpi_provinces (dom (run evs loaded)) =
    JNum (Z.of_nat (length (Object_keys (provinces data)))).
Proof.
  cbv zeta.
  destruct (run_frame evs (initDashboard StringToNumber page data chinaGeo))
    as (E1 & E2 & E3 & E4 & E5 & E6 & E7).
  rewrite E1, E2, E3, E4, E5, E6, E7.
  cbn [initDashboard globalPolicies mapChart timelineChart instChart dom].
  rewrite renderTable_set; repeat split.
Qed.

Lemma firstn_Subseq (A : Type) (n : nat) (l : list A) : Subseq (firstn n l) l.
Proof.
  revert n; induction l as [|x l IH]; intros [|n]; simpl.
  - constructor.
  - constructor.
  - apply Subseq_skip; exact (IH 0).
  - apply Subseq_take, IH.
Qed.

Lemma view_Subseq (sel : Selection) (ps : list Policy) : Subseq (view sel ps) ps.
Proof.
  destruct sel; cbn [view]; [apply firstn_Subseq | apply filter_Subseq ..].
Qed.

Lemma Subseq_In (A : Type) (l1 l2 : list A) (x : A) :
  Subseq l1 l2 -> In x l1 -> In x l2.
Proof.
  induction 1 as [|y l1 l2 _ IH|y l1 l2 _ IH]; simpl; intuition.
Qed.

Lemma step_tbody (sel : Selection) (ev : Event) (app : App) :
  policy_tbody (dom app) = tbodyOf (view sel (globalPolicies app)) ->
  policy_tbody (dom (step app ev)) =
    tbodyOf (view (select (rawKeys (instChart app)) sel ev) (globalPolicies app)).
Proof.
  intros Hinv; unfold step.
  destruct ev as [nm | els | pid | | onOverlay]; cbn [handle select].
  - destruct nm as [|c nm]; [exact Hinv|].
    cbn [truthy]; rewrite filterTableByProvince_dom.
    apply policy_tbody_renderTable.
  - destruct els as [|index rest].
    + cbn [dom with_dom]; apply policy_tbody_renderTable.
    + destruct (nth_error (rawKeys (instChart app)) index); [|exact Hinv].
      rewrite filterTableByInstrument_dom; apply policy_tbody_renderTable.
  - unfold openModal.
    destruct (find (fun x => str_eqb (id x) pid) (globalPolicies app));
      exact Hinv.
  - exact Hinv.
  - destruct onOverlay; exact Hinv.
Qed.

Lemma run_tbody (evs : list Event) (sel : Selection) (app : App) :
  policy_tbody (dom app) = tbodyOf (view sel (globalPolicies app)) ->
  policy_tbody (dom (run evs app)) =
    tbodyOf (view (fold_left (select (rawKeys (instChart app))) evs sel)
                  (globalPolicies app)).
Proof.
  revert sel app; induction evs as [|ev evs IH]; intros sel app Hinv;
    [exact Hinv|].
  rewrite run_cons; simpl fold_left.
  destruct (step_frame app ev) as (F1 & _ & _ & F4 & _).
  rewrite <- F1, <- F4; apply IH.
  rewrite F1, F4; apply step_tbody; exact Hinv.
Qed.

Lemma loaded_tbody (StringToNumber : jsstring -> option Z)
    (page : Dom) (data : Data) (chinaGeo : GeoJson) :
  policy_tbody (dom (initDashboard StringToNumber page data chinaGeo)) =
  tbodyOf (view Unfiltered (policies data)).
Proof. cbn [dom initDashboard]; apply policy_tbody_renderTable. Qed.

(** X7. The table is a function of the last selection alone.  After any
    sequence of user events the table shows the view of the loaded
    collection under the selection the events leave: the first 50 records
    when unfiltered, the records of a province after a click on a named map
    region, the records carrying a code after a click on its chart bar; row
    clicks, close actions, clicks on an unnamed region and chart clicks
    beyond the last bar leave the selection as it was.  What is shown is
    always a subsequence of the collection. *)
Theorem table_follows_selection (StringToNumber : jsstring -> option Z)
    (page : Dom) (data : Data) (chinaGeo : GeoJson) (evs : list Event) :
  let loaded := initDashboard StringToNumber page data chinaGeo in
  let sel := selectionAfter (rawKeys (initCharts_inst data)) evs in
  policy_tbody (dom (run evs loaded)) = tbodyOf (view sel (policies data)) /\
  Subseq (view sel (policies data)) (policies data).
Proof.
  cbv zeta; split; [|apply view_Subseq].
  apply (run_tbody evs Unfiltered
           (initDashboard StringToNumber page data chinaGeo)).
  apply loaded_tbody.
Qed.

(** The selection of the specification's scenario: a province, then an
    instrument, then a row click and a close, leave the instrument view. *)
Example table_follows_selection_sample :
  policy_tbody
    (dom (run [MapClick Sichuan; InstChartClick [0]; RowClick (lit "x1");
               CloseClick] sample_app)) =
  Rows [renderRow policy_x1].
Proof. reflexivity. Qed.

(** X8. A new selection replaces the previous one, it does not compose
    with it: filtering by a province or by an instrument gives the same
    page whether or not a map click or a chart click came just before. *)
Theorem selection_replaces (app : App) (P C : jsstring) :
  (forall name,
      filterTableByProvince P (step app (MapClick name)) =
        filterTableByProvince P app /\
      filterTableByInstrument C (step app (MapClick name)) =
        filterTableByInstrument C app) /\
  (forall elements,
      filterTableByProvince P (step app (InstChartClick elements)) =
        filterTableByProvince P app /\
      filterTableByInstrument C (step app (InstChartClick elements)) =
        filterTableByInstrument C app).
Proof.
  assert (Hp : forall ps h,
             filterTableByProvince P
               (with_dom app (renderTable ps (set_table_heading (dom app) h))) =
             filterTableByProvince P app).
  { intros ps h; apply App_eq; try reflexivity.
    rewrite !filterTableByProvince_dom; cbn [dom with_dom globalPolicies].
    rewrite renderTable_absorb, renderTable_absorb_heading; reflexivity. }
  assert (Hc : forall ps h,
             filterTableByInstrument C
               (with_dom app (renderTable ps (set_table_heading (dom app) h))) =
             filterTableByInstrument C app).
  { intros ps h; apply App_eq; try reflexivity.
    rewrite !filterTableByInstrument_dom; cbn [dom with_dom globalPolicies].
    rewrite renderTable_absorb, renderTable_absorb_heading; reflexivity. }
  assert (Hp0 : forall ps,
             filterTableByProvince P (with_dom app (renderTable ps (dom app))) =
             filterTableByProvince P app).
  { intros ps; apply App_eq; try reflexivity.
    rewrite !filterTableByProvince_dom; cbn [dom with_dom globalPolicies].
    rewrite renderTable_absorb; reflexivity. }
  assert (Hc0 : forall ps,
             filterTableByInstrument C (with_dom app (renderTable ps (dom app))) =
             filterTableByInstrument C app).
  { intros ps; apply App_eq; try reflexivity.
    rewrite !filterTableByInstrument_dom; cbn [dom with_dom globalPolicies].
    rewrite renderTable_absorb; reflexivity. }
  split.
  - intros nm; unfold step; cbn [handle].
    destruct (truthy (JStr nm)); [|split; reflexivity].
    split; [apply Hp | apply Hc].
  - intros [|index rest]; unfold step; cbn [handle].
    + split; [apply Hp0 | apply Hc0].
    + destruct (nth_error (rawKeys (instChart app)) index);
        [|split; reflexivity].
      split; [apply Hp | apply Hc].
Qed.

(* ===================================================================== *)
(** * Further properties: the modal *)
(* ===================================================================== *)

Lemma find_first_match (A : Type) (f : A -> bool) (l : list A) (x : A) :
  find f l = Some x ->
  exists before after,
    l = before ++ x :: after /\ f x = true /\
    (forall y, In y before -> f y = false).
Proof.
  induction l as [|a l IH]; simpl; [discriminate|].
  destruct (f a) eqn:E.
  - intros [= ->]; exists [], l; repeat split; [exact E | intros y []].
  - intros H; destruct (IH H) as (before & after & -> & Hx & Hb).
    exists (a :: before), after; repeat split; [exact Hx|].
    intros y [<-|Hy]; [exact E | apply Hb, Hy].
Qed.

Lemma find_exists (A : Type) (f : A -> bool) (l : list A) (x : A) :
  In x l -> f x = true -> exists y, find f l = Some y.
Proof.
  intros Hin Hf; destruct (find f l) as [y|] eqn:E; [exists y; reflexivity|].
  rewrite (proj1 (find_none_iff _ f l) E x Hin) in Hf; discriminate.
Qed.

Lemma find_existsb (A : Type) (f : A -> bool) (l : list A) :
  existsb f l = match find f l with Some _ => true | None => false end.
Proof.
  induction l as [|a l IH]; simpl; [reflexivity|].
  destruct (f a); [reflexivity | exact IH].
Qed.

Lemma NoDup_map_inj (A B : Type) (f : A -> B) (l : list A) (x y : A) :
  NoDup (map f l) -> In x l -> In y l -> f x = f y -> x = y.
Proof.
  induction l as [|a l IH]; simpl; [tauto|].
  intros Hnd; apply NoDup_cons_iff in Hnd; destruct Hnd as [Ha Hnd].
  intros [->|Hx] [->|Hy] E; auto.
  - exfalso; apply Ha; rewrite E; apply in_map; exact Hy.
  - exfalso; apply Ha; rewrite <- E; apply in_map; exact Hx.
Qed.

Lemma openModal_found (pid : jsstring) (app : App) (p : Policy) :
  find (fun x => str_eqb (id x) pid) (globalPolicies app) = Some p ->
  overlay_hidden (dom (openModal pid app)) = false /\
  modal_title (dom (openModal pid app)) = JStr (title p).
Proof. intros H; unfold openModal; rewrite H; split; reflexivity. Qed.

(** X9. Opening the modal for an id that some record has shows the first
    record of the collection with that id: the overlay becomes visible and
    the modal title is that record's title, also when a later record shares
    the id. *)
Theorem openModal_first_match (app : App) (policyId : jsstring) (p0 : Policy) :
  In p0 (globalPolicies app) -> id p0 = policyId ->
  exists before p after,
    globalPolicies app = before ++ p :: after /\
    id p = policyId /\
    (forall q, In q before -> id q <> policyId) /\
    overlay_hidden (dom (openModal policyId app)) = false /\
    modal_title (dom (openModal policyId app)) = JStr (title p).
Proof.
  intros Hin Hid.
  destruct (find_exists _ (fun x => str_eqb (id x) policyId) _ p0 Hin)
    as [p Hfind]; [apply str_eqb_eq; exact Hid|].
  destruct (find_first_match _ _ _ _ Hfind) as (before & after & E & Hp & Hb).
  destruct (openModal_found _ _ _ Hfind) as [Ho Ht].
  exists before, p, after; split; [exact E|]; split; [apply str_eqb_eq; exact Hp|].
  split; [|split; [exact Ho | exact Ht]].
  intros q Hq; apply str_eqb_neq; apply Hb; exact Hq.
Qed.

Lemma openModal_first_match_witness :
  In policy_x2 (globalPolicies sample_app) /\
  id policy_x2 = lit "x2" /\
  overlay_hidden (dom (openModal (lit "x2") sample_app)) = false /\
  modal_title (dom (openModal (lit "x2") sample_app)) = JStr (lit "Hydrogen plan").
Proof.
  assert (Hin : In policy_x2 (globalPolicies sample_app))
    by (right; left; reflexivity).
  split; [exact Hin|]; split; [reflexivity|].
  destruct (openModal_first_match sample_app (lit "x2") policy_x2 Hin eq_refl)
    as (before & p & after & _ & _ & _ & Ho & _).
  split; [exact Ho | reflexivity].
Defined.

(** X10. In every state the page can reach, each row on display whose id
    is made of ASCII letters, digits, [_] and [-] can be clicked open: for
    such an id the handler text of the row, [openModal('<id>')], calls
    [openModal] with the id; the id belongs to a record of the collection,
    so the modal becomes visible and shows the title of a record with that
    id; when the ids of the collection are distinct, that is the full title
    of the clicked row itself.  (For an id with a quote, a backslash or a
    line break the handler text is not such a call, and nothing is
    claimed.) *)
Theorem displayed_row_opens_modal (StringToNumber : jsstring -> option Z)
    (page : Dom) (data : Data) (chinaGeo : GeoJson) (evs : list Event)
    (r : Row) :
  let app := run evs (initDashboard StringToNumber page data chinaGeo) in
  In r (rows_of (policy_tbody (dom app))) ->
  plain_id (row_onclick r) = true ->
  onclickAttr r = lit "openModal('" ++ row_onclick r ++ lit "')" /\
  overlay_hidden (dom (openModal (row_onclick r) app)) = false /\
  (exists p, In p (policies data) /\ id p = row_onclick r /\
             modal_title (dom (openModal (row_onclick r) app)) = JStr (title p)) /\
  (NoDup (map id (policies data)) ->
   modal_title (dom (openModal (row_onclick r) app)) = JStr (row_title_attr r)).
Proof.
  cbv zeta; intros Hr _; split; [reflexivity|].
  set (app := run evs (initDashboard StringToNumber page data chinaGeo)) in *.
  assert (Hpol : globalPolicies app = policies data).
  { unfold app; rewrite (proj1 (run_frame evs _)); reflexivity. }
  unfold app in Hr.
  rewrite (run_tbody evs Unfiltered _ (loaded_tbody _ page data chinaGeo)) in Hr.
  rewrite rows_of_tbodyOf in Hr.
  apply in_map_iff in Hr; destruct Hr as (p0 & <- & Hp0).
  apply (Subseq_In _ _ _ _ (view_Subseq _ _)) in Hp0.
  change (globalPolicies
            (initDashboard StringToNumber page data chinaGeo))
    with (policies data) in Hp0.
  cbn [row_onclick row_title_attr renderRow].
  destruct (find_exists _ (fun x => str_eqb (id x) (id p0))
              (globalPolicies app) p0) as [p Hfind];
    [rewrite Hpol; exact Hp0 | apply str_eqb_refl|].
  destruct (openModal_found _ _ _ Hfind) as [Ho Ht].
  destruct (find_first_match _ _ _ _ Hfind) as (before & after & E & Hp & _).
  apply str_eqb_eq in Hp.
  assert (Hin : In p (policies data)).
  { rewrite <- Hpol, E; apply in_or_app; right; left; reflexivity. }
  split; [exact Ho|]; split.
  - exists p; split; [exact Hin|]; split; [exact Hp | exact Ht].
  - intros Hnd; rewrite Ht.
    rewrite (NoDup_map_inj _ _ id _ p p0 Hnd Hin Hp0 Hp); reflexivity.
Qed.

Lemma displayed_row_opens_modal_witness :
  In (renderRow policy_x1)
     (rows_of (policy_tbody (dom (run [MapClick Shanghai] sample_app)))) /\
  plain_id (row_onclick (renderRow policy_x1)) = true /\
  overlay_hidden
    (dom (openModal (lit "x1") (run [MapClick Shanghai] sample_app))) = false /\
  NoDup (map id (policies sample_data)) /\
  modal_title
    (dom (openModal (lit "x1") (run [MapClick Shanghai] sample_app))) =
    JStr (title policy_x1).
Proof.
  assert (Hr : In (renderRow policy_x1)
                 (rows_of (policy_tbody
                             (dom (run [MapClick Shanghai] sample_app)))))
    by (left; reflexivity).
  assert (Hnd : NoDup (map id (policies sample_data))).
  { change (NoDup (Object_keys (map (fun p => (id p, p)) (policies sample_data)))).
    apply wf_obj_decide; reflexivity. }
  destruct (displayed_row_opens_modal sample_StringToNumber sample_page
              sample_data sample_geo [MapClick Shanghai] _ Hr eq_refl)
    as (_ & Ho & _ & Ht).
  split; [exact Hr|]; split; [reflexivity|].
  split; [exact Ho|]; split; [exact Hnd | exact (Ht Hnd)].
Defined.

(** X11. Which events move the overlay: a row click on an id some record
    has shows it, the close action and a click on the overlay itself hide
    it, and every other event (a row click on an unknown id, a click inside
    the modal or elsewhere in the window, any map or chart click) leaves it
    as it was. *)
Theorem overlay_after_event (app : App) (ev : Event) :
  overlay_hidden (dom (step app ev)) =
  match ev with
  | RowClick policyId =>
      if existsb (fun x => str_eqb (id x) policyId) (globalPolicies app)
      then false else overlay_hidden (dom app)
  | CloseClick => true
  | WindowClick true => true
  | WindowClick false | MapClick _ | InstChartClick _ => overlay_hidden (dom app)
  end.
Proof.
  unfold step; destruct ev as [nm | els | pid | | onOverlay]; cbn [handle].
  - destruct (truthy (JStr nm)); [|reflexivity].
    rewrite filterTableByProvince_dom, renderTable_set; reflexivity.
  - destruct els as [|index rest].
    + cbn [dom with_dom]; rewrite renderTable_set; reflexivity.
    + destruct (nth_error (rawKeys (instChart app)) index); [|reflexivity].
      rewrite filterTableByInstrument_dom, renderTable_set; reflexivity.
  - rewrite find_existsb; unfold openModal.
    destruct (find (fun x => str_eqb (id x) pid) (globalPolicies app));
      reflexivity.
  - reflexivity.
  - destruct onOverlay; reflexivity.
Qed.

(** X12. The table and the modal do not interfere: a map click or a chart
    click leaves the four modal slots as they were, and a row click, a close
    action or a window click leaves the table body and its heading as they
    were. *)
Theorem table_and_modal_independent (app : App) (ev : Event) :
  match ev with
  | MapClick _ | InstChartClick _ =>
      modal_title (dom (step app ev)) = modal_title (dom app) /\
      modal_targets (dom (step app ev)) = modal_targets (dom app) /\
      modal_subsidies (dom (step app ev)) = modal_subsidies (dom app) /\
      modal_instruments (dom (step app ev)) = modal_instruments (dom app)
  | RowClick _ | CloseClick | WindowClick _ =>
      policy_tbody (dom (step app ev)) = policy_tbody (dom app) /\
      table_heading (dom (step app ev)) = table_heading (dom app)
  end.
Proof.
  unfold step; destruct ev as [nm | els | pid | | onOverlay]; cbn [handle].
  - destruct (truthy (JStr nm)); [|repeat split].
    rewrite filterTableByProvince_dom, renderTable_set; repeat split.
  - destruct els as [|index rest].
    + cbn [dom with_dom]; rewrite renderTable_set; repeat split.
    + destruct (nth_error (rawKeys (instChart app)) index); [|repeat split].
      rewrite filterTableByInstrument_dom, renderTable_set; repeat split.
  - unfold openModal.
    destruct (find (fun x => str_eqb (id x) pid) (globalPolicies app));
      split; reflexivity.
  - split; reflexivity.
  - destruct onOverlay; split; reflexivity.
Qed.

Lemma startsWith_app_short (a b pat : jsstring) :
  length pat <= length a -> startsWith (a ++ b) pat = startsWith a pat.
Proof.
  revert a; induction pat as [|p pat IH]; intros a Hlen; [reflexivity|].
  destruct a as [|c a]; simpl in *; [lia|].
  rewrite IH; [reflexivity | lia].
Qed.

(** [replace] with a string pattern acts on the first occurrence. *)
Lemma replace_first_occurrence (pat rep pre post : jsstring) :
  pat <> [] ->
  ~ Contains (pre ++ removelast pat) pat ->
  replace (pre ++ pat ++ post) pat rep = pre ++ rep ++ post.
Proof.
  intros Hpat; induction pre as [|c pre IH]; intros Hno.
  - exact (replace_prefix pat post rep).
  - assert (Hs : startsWith ((c :: pre) ++ pat ++ post) pat = false).
    { destruct (startsWith ((c :: pre) ++ pat ++ post) pat) eqn:E; [|reflexivity].
      exfalso; apply Hno.
      rewrite (app_removelast_last 0%N Hpat) in E at 1.
      rewrite <- app_assoc, app_assoc in E.
      rewrite startsWith_app_short in E.
      - apply startsWith_spec in E; destruct E as [rest E].
        exists [], rest; exact E.
      - rewrite length_app; simpl.
        rewrite (app_removelast_last 0%N Hpat) at 1.
        rewrite !length_app; simpl; lia. }
    rewrite replace_unfold, Hs; simpl; f_equal.
    apply IH; intros (a & b & E); apply Hno.
    exists (c :: a), b; simpl; rewrite E; reflexivity.
Qed.

Lemma fold_left_appendTarget (entries : list (jsstring * option Detail))
    (html : list TargetItem) :
  fold_left appendTarget entries html = html ++ flat_map shownTarget entries.
Proof.
  revert html; induction entries as [|[k ov] es IH]; simpl; intros html.
  - rewrite app_nil_r; reflexivity.
  - rewrite IH; unfold appendTarget, shownTarget; simpl.
    destruct ov as [v|]; [|reflexivity].
    destruct (truthy (value v)); [|reflexivity].
    rewrite <- app_assoc; reflexivity.
Qed.

Lemma targetHtml_flat_map (p : Policy) :
  targetHtml p = flat_map shownTarget (target_entries p).
Proof.
  unfold targetHtml, target_entries; destruct (targets p); [|reflexivity].
  apply fold_left_appendTarget.
Qed.

Lemma flat_map_nil_iff (A B : Type) (f : A -> list B) (l : list A) :
  flat_map f l = [] <-> forall x, In x l -> f x = [].
Proof.
  induction l as [|a l IH]; simpl; [split; [intros _ x [] | reflexivity]|].
  split.
  - intros H; apply app_eq_nil in H; destruct H as [Ha Hl].
    intros x [<-|Hx]; [exact Ha | apply IH; assumption].
  - intros H; rewrite (H a (or_introl eq_refl)); simpl.
    apply IH; intros x Hx; apply H; right; exact Hx.
Qed.

Lemma or_fallback_Fallback (A : Type) (items : list A) (msg : jsstring) :
  or_fallback items msg = Fallback msg <-> items = [].
Proof. destruct items; simpl; split; intros H; try discriminate; reflexivity. Qed.

(** X13. The targets block of the modal lists, in the order of the record's
    [targets], exactly the targets whose value is truthy: a target with a
    null entry or with evidence but no value is left out.  An item's unit
    is "Vehicles" exactly when the target's key contains "vehicle".  Its
    label is the key with the first occurrence of "target_" removed,
    wherever it stands (the prefix, for a key that starts with it; nothing,
    for a key without it), and then underscores turned into spaces. *)
Theorem modal_targets_block (app : App) (p : Policy) :
  find (fun x => str_eqb (id x) (id p)) (globalPolicies app) = Some p ->
  modal_targets (dom (openModal (id p) app)) =
    or_fallback (flat_map shownTarget (target_entries p))
                (lit "No specific quantitative targets found.") /\
  (forall item, In item (flat_map shownTarget (target_entries p)) <->
     exists k v, In (k, Some v) (target_entries p) /\
                 truthy (value v) = true /\ item = targetItem k v) /\
  (forall k v, truthy (value v) = false -> shownTarget (k, Some v) = []) /\
  (forall k, shownTarget (k, None) = []) /\
  (forall k v, tgt_unit (targetItem k v) = lit "Vehicles" <->
               Contains k (lit "vehicle")) /\
  (forall k v, tgt_label (targetItem (lit "target_" ++ k) v) =
               replace_underscores k) /\
  (forall k v, ~ Contains k (lit "target_") ->
               tgt_label (targetItem k v) = replace_underscores k) /\
  (forall pre post v,
      ~ Contains (pre ++ lit "target") (lit "target_") ->
      tgt_label (targetItem (pre ++ lit "target_" ++ post) v) =
        replace_underscores (pre ++ post)).
Proof.
  intros Hfind.
  split; [|split; [|split; [|split; [|split; [|split; [|split]]]]]].
  - unfold openModal; rewrite Hfind; cbn [dom with_dom modal_targets
      set_overlay_hidden set_modal].
    rewrite targetHtml_flat_map; reflexivity.
  - intros item; rewrite in_flat_map; split.
    + intros ([k ov] & Hin & Hitem); unfold shownTarget in Hitem; simpl in Hitem.
      destruct ov as [v|]; [|destruct Hitem].
      destruct (truthy (value v)) eqn:E; [|destruct Hitem].
      destruct Hitem as [<-|[]]; exists k, v; repeat split; assumption.
    + intros (k & v & Hin & Hv & ->); exists (k, Some v); split; [exact Hin|].
      unfold shownTarget; simpl; rewrite Hv; left; reflexivity.
  - intros k v Hv; unfold shownTarget; simpl; rewrite Hv; reflexivity.
  - reflexivity.
  - intros k v; rewrite <- includes_spec; cbn [tgt_unit targetItem].
    destruct (includes k (lit "vehicle")); split; intros H;
      try reflexivity; discriminate H.
  - intros k v; cbn [tgt_label targetItem]; rewrite replace_prefix; reflexivity.
  - intros k v Hno; cbn [tgt_label targetItem].
    rewrite replace_absent; [reflexivity | apply not_Contains_includes, Hno].
  - intros pre post v Hfirst; cbn [tgt_label targetItem].
    rewrite (replace_first_occurrence (lit "target_") [] pre post);
      [reflexivity | discriminate | exact Hfirst].
Qed.

Lemma modal_targets_block_witness :
  find (fun x => str_eqb (id x) (id policy_x1)) (globalPolicies sample_app) =
    Some policy_x1 /\
  modal_targets (dom (openModal (lit "x1") sample_app)) =
    Items [ {| tgt_label := lit "vehicle count";
               tgt_value := JNum 5000;
               tgt_unit := lit "Vehicles";
               tgt_quote := None |} ] /\
  ~ Contains (lit "my_" ++ lit "target") (lit "target_") /\
  tgt_label (targetItem (lit "my_target_count")
                        {| value := JNum 1; evidence := JNull |}) =
    lit "my count".
Proof.
  assert (Hf : find (fun x => str_eqb (id x) (id policy_x1))
                    (globalPolicies sample_app) = Some policy_x1)
    by reflexivity.
  assert (Hno : ~ Contains (lit "my_" ++ lit "target") (lit "target_"))
    by (apply not_Contains_includes; reflexivity).
  destruct (modal_targets_block sample_app policy_x1 Hf)
    as (Hb & _ & _ & _ & _ & _ & _ & Hl).
  split; [exact Hf|]; split; [exact Hb|]; split; [exact Hno|].
  exact (Hl (lit "my_") (lit "count") {| value := JNum 1; evidence := JNull |} Hno).
Defined.

(** X14. Each of the three modal blocks falls back on its own: the targets
    block shows its empty-state message exactly when no target has a value,
    the financial block exactly when no merged entry has a value or
    evidence, and the last block shows "None." exactly when [other] is
    absent or empty (otherwise it lists the [other] strings as they are). *)
Theorem modal_fallbacks (app : App) (p : Policy) :
  find (fun x => str_eqb (id x) (id p)) (globalPolicies app) = Some p ->
  let shown := dom (openModal (id p) app) in
  (modal_targets shown = Fallback (lit "No specific quantitative targets found.")
   <-> forall k v, In (k, Some v) (target_entries p) -> truthy (value v) = false) /\
  (modal_subsidies shown = Fallback (lit "No specific financial instruments found.")
   <-> forall k v, In (k, Some v) (allFinance p) ->
                   truthy (value v) = false /\ truthy (evidence v) = false) /\
  (modal_instruments shown = Fallback (lit "None.")
   <-> other p = None \/ other p = Some []) /\
  (forall o, other p = Some o -> o <> [] -> modal_instruments shown = Items o).
Proof.
  intros Hfind; cbv zeta; unfold openModal; rewrite Hfind.
  cbn [dom with_dom modal_targets modal_subsidies modal_instruments
       set_overlay_hidden set_modal].
  rewrite targetHtml_flat_map, subHtml_flat_map, !or_fallback_Fallback,
          !flat_map_nil_iff.
  split; [|split; [|split]].
  - split.
    + intros H k v Hin; specialize (H _ Hin); unfold shownTarget in H; simpl in H.
      destruct (truthy (value v)); [discriminate H | reflexivity].
    + intros H [k [v|]] Hin; unfold shownTarget; simpl; [|reflexivity].
      rewrite (H _ _ Hin); reflexivity.
  - split.
    + intros H k v Hin; specialize (H _ Hin).
      unfold shownFinance, financeShown in H; simpl in H.
      destruct (truthy (value v)), (truthy (evidence v));
        simpl in H; try discriminate H; split; reflexivity.
    + intros H [k [v|]] Hin; unfold shownFinance, financeShown; simpl;
        [|reflexivity].
      destruct (H _ _ Hin) as [-> ->]; reflexivity.
  - unfold instHtml; destruct (other p) as [[|x o]|]; split; intros H;
      try reflexivity; try discriminate H; auto.
    destruct H as [H|H]; discriminate H.
  - intros o Ho Hne; unfold instHtml; rewrite Ho.
    destruct o; [destruct (Hne eq_refl) | reflexivity].
Qed.

Lemma modal_fallbacks_witness :
  find (fun x => str_eqb (id x) (id policy_x2)) (globalPolicies sample_app) =
    Some policy_x2 /\
  modal_targets (dom (openModal (lit "x2") sample_app)) =
    Fallback (lit "No specific quantitative targets found.") /\
  modal_subsidies (dom (openModal (lit "x2") sample_app)) =
    Fallback (lit "No specific financial instruments found.") /\
  modal_instruments (dom (openModal (lit "x2") sample_app)) =
    Items [lit "pilot zone"].
Proof.
  assert (Hf : find (fun x => str_eqb (id x) (id policy_x2))
                    (globalPolicies sample_app) = Some policy_x2)
    by reflexivity.
  split; [exact Hf|].
  destruct (modal_fallbacks sample_app policy_x2 Hf) as (Ht & Hs & _ & Ho).
  split; [apply Ht; intros k v []|].
  split; [apply Hs; intros k v []|].
  apply (Ho [lit "pilot zone"]); [reflexivity | discriminate].
Defined.

(* ===================================================================== *)
(** * Further properties: the instrument chart *)
(* ===================================================================== *)

Lemma ranked_perm (l : list (jsstring * Z)) :
  Permutation (Array_sort byCountDesc l) l.
Proof. apply (Array_sort_perm _ snd). Qed.

Lemma ranked_sorted (l : list (jsstring * Z)) :
  StronglySorted countGe (Array_sort byCountDesc l).
Proof. apply (Array_sort_sorted _ snd). Qed.

Lemma length_sortedInst (data : Data) :
  length (sortedInst data) = Nat.min 8 (length (global_instruments data)).
Proof.
  unfold sortedInst, slice0, Object_entries.
  rewrite length_firstn, (Permutation_length (ranked_perm _)).
  reflexivity.
Qed.

(** X15. The instrument chart has min(8, n) bars for n instrument codes.  A
    click on the bar at an index below that number filters the table by the
    code kept for the bar; a click reported at any other index throws a
    TypeError before anything is written, and the page stays as it was. *)
Theorem chart_click_bounds (data : Data) (app : App) (index : nat)
    (rest : list nat) :
  instChart app = initCharts_inst data ->
  let bars := Nat.min 8 (length (global_instruments data)) in
  length (rawKeys (instChart app)) = bars /\
  length (labels (instChart app)) = bars /\
  length (dataset_data (instChart app)) = bars /\
  (handle (InstChartClick (index :: rest)) app = TypeError <-> bars <= index) /\
  (bars <= index -> step app (InstChartClick (index :: rest)) = app) /\
  (index < bars ->
   exists key, nth_error (rawKeys (instChart app)) index = Some key /\
               handle (InstChartClick (index :: rest)) app =
                 Normal (filterTableByInstrument key app)).
Proof.
  intros Hchart; cbv zeta.
  assert (Hlen : length (rawKeys (instChart app)) =
                 Nat.min 8 (length (global_instruments data))).
  { rewrite Hchart; cbn [rawKeys initCharts_inst].
    rewrite length_map; apply length_sortedInst. }
  split; [exact Hlen|].
  split; [rewrite Hchart; cbn [labels initCharts_inst];
          rewrite length_map; apply length_sortedInst|].
  split; [rewrite Hchart; cbn [dataset_data initCharts_inst];
          rewrite length_map; apply length_sortedInst|].
  rewrite <- Hlen; split; [|split].
  - cbn [handle]; rewrite <- nth_error_None.
    destruct (nth_error (rawKeys (instChart app)) index); split; intros H;
      try reflexivity; discriminate H.
  - intros H; apply nth_error_None in H; unfold step; cbn [handle].
    rewrite H; reflexivity.
  - intros H; apply nth_error_Some in H; cbn [handle].
    destruct (nth_error (rawKeys (instChart app)) index) as [key|];
      [exists key; split; reflexivity | destruct (H eq_refl)].
Qed.

Lemma chart_click_bounds_witness :
  instChart sample_app = initCharts_inst sample_data /\
  length (rawKeys (instChart sample_app)) = 8 /\
  handle (InstChartClick [8]) sample_app = TypeError /\
  step sample_app (InstChartClick [8]) = sample_app /\
  handle (InstChartClick [7]) sample_app =
    Normal (filterTableByInstrument (lit "c") sample_app).
Proof.
  assert (Hc : instChart sample_app = initCharts_inst sample_data) by reflexivity.
  destruct (chart_click_bounds sample_data sample_app 8 [] Hc)
    as (Hlen & _ & _ & Herr & Hstep & _).
  split; [exact Hc|]; split; [exact Hlen|].
  split; [apply Herr; vm_compute; lia|].
  split; [apply Hstep; vm_compute; lia|].
  destruct (chart_click_bounds sample_data sample_app 7 [] Hc)
    as (_ & _ & _ & _ & _ & Hok).
  destruct Hok as (key & Hk & Hh); [vm_compute; lia|].
  rewrite Hh; vm_compute in Hk; injection Hk as <-; reflexivity.
Defined.

Lemma StronglySorted_app_inv (A : Type) (R : A -> A -> Prop) (l1 l2 : list A) :
  StronglySorted R (l1 ++ l2) ->
  StronglySorted R l1 /\ forall a b, In a l1 -> In b l2 -> R a b.
Proof.
  induction l1 as [|x l1 IH]; simpl; intros H.
  - split; [constructor | intros a b []].
  - apply StronglySorted_inv in H; destruct H as [Hs Hx].
    destruct (IH Hs) as [Hs1 Hcross]; split.
    + constructor; [exact Hs1|].
      apply Forall_forall; intros y Hy; rewrite Forall_forall in Hx.
      apply Hx, in_or_app; left; exact Hy.
    + intros a b [<-|Ha] Hb; [|apply Hcross; assumption].
      rewrite Forall_forall in Hx; apply Hx, in_or_app; right; exact Hb.
Qed.

Lemma StronglySorted_map (A B : Type) (f : A -> B) (R : B -> B -> Prop)
    (l : list A) :
  StronglySorted (fun a b => R (f a) (f b)) l -> StronglySorted R (map f l).
Proof.
  induction 1 as [|x l _ IH Hx]; simpl; constructor; [exact IH|].
  apply Forall_forall; intros y Hy; apply in_map_iff in Hy.
  destruct Hy as (z & <- & Hz); rewrite Forall_forall in Hx; apply Hx, Hz.
Qed.

(** X16. The bars are the top of the ranking: their counts are in
    non-increasing order, no instrument left off the chart has a larger
    count than one on it, and with at most 8 instruments none is left
    off. *)
Theorem chart_shows_top_counts (data : Data) :
  StronglySorted (fun a b => (b <= a)%Z) (dataset_data (initCharts_inst data)) /\
  (forall e e', In e (sortedInst data) ->
                In e' (Object_entries (global_instruments data)) ->
                ~ In e' (sortedInst data) ->
                (snd e' <= snd e)%Z) /\
  (length (global_instruments data) <= 8 ->
   Permutation (sortedInst data) (Object_entries (global_instruments data))).
Proof.
  pose proof (ranked_sorted (Object_entries (global_instruments data))) as Hs.
  pose proof (ranked_perm (Object_entries (global_instruments data))) as Hp.
  unfold countGe in Hs.
  rewrite <- (firstn_skipn 8 (Array_sort byCountDesc _)) in Hs.
  apply StronglySorted_app_inv in Hs; destruct Hs as [Hs1 Hcross].
  split; [|split].
  - cbn [dataset_data initCharts_inst]; apply StronglySorted_map; exact Hs1.
  - intros e e' He He' Hout.
    apply (Permutation_in _ (Permutation_sym Hp)) in He'.
    rewrite <- (firstn_skipn 8 (Array_sort byCountDesc _)) in He'.
    apply in_app_or in He'; destruct He' as [He'|He']; [destruct (Hout He')|].
    apply (Hcross e e'); assumption.
  - intros Hle; unfold sortedInst, slice0; rewrite firstn_all2; [exact Hp|].
    rewrite (Permutation_length Hp); exact Hle.
Qed.

Lemma chart_shows_top_counts_witness :
  In (lit "c", 1%Z) (sortedInst sample_data) /\
  In (lit "d", 1%Z) (Object_entries (global_instruments sample_data)) /\
  ~ In (lit "d", 1%Z) (sortedInst sample_data) /\
  (1 <= 1)%Z.
Proof.
  assert (H1 : In (lit "c", 1%Z) (sortedInst sample_data))
    by (vm_compute; tauto).
  assert (H2 : In (lit "d", 1%Z) (Object_entries (global_instruments sample_data)))
    by (vm_compute; tauto).
  assert (H3 : ~ In (lit "d", 1%Z) (sortedInst sample_data)).
  { vm_compute; intros H.
    repeat (destruct H as [H|H]; [discriminate H|]); exact H. }
  split; [exact H1|]; split; [exact H2|]; split; [exact H3|].
  exact (proj1 (proj2 (chart_shows_top_counts sample_data)) _ _ H1 H2 H3).
Defined.

Lemma NoDup_firstn (A : Type) (n : nat) (l : list A) :
  NoDup l -> NoDup (firstn n l).
Proof.
  intros H; rewrite <- (firstn_skipn n l) in H.
  apply NoDup_app_remove_r in H; exact H.
Qed.

(** X17. Each bar stands for one instrument code of the dataset: the codes
    kept for the bars are distinct, and for the bar at any index the count
    drawn is the count the [global_instruments] mapping holds for the code
    kept at that index, and the label shown is computed from that code. *)
Theorem chart_bars_lookup (data : Data) :
  wf_obj (global_instruments data) ->
  let chart := initCharts_inst data in
  NoDup (rawKeys chart) /\
  (forall index key,
      nth_error (rawKeys chart) index = Some key ->
      exists cnt,
        nth_error (dataset_data chart) index = Some cnt /\
        obj_get (global_instruments data) key = Some cnt /\
        nth_error (labels chart) index = Some (displayLabel key)).
Proof.
  intros Hwf; cbv zeta; cbn [rawKeys dataset_data labels initCharts_inst].
  pose proof (ranked_perm (Object_entries (global_instruments data))) as Hp.
  split.
  - unfold sortedInst, slice0; rewrite <- firstn_map; apply NoDup_firstn.
    apply (Permutation_NoDup (Permutation_sym (Permutation_map fst Hp))).
    exact Hwf.
  - intros index key Hnth; rewrite nth_error_map in Hnth.
    destruct (nth_error (sortedInst data) index) as [[k cnt]|] eqn:E;
      [|discriminate Hnth].
    simpl in Hnth; injection Hnth as ->.
    exists cnt; rewrite !nth_error_map, E; repeat split.
    apply In_obj_get; [exact Hwf|].
    apply nth_error_In in E; unfold sortedInst, slice0 in E.
    apply (Subseq_In _ _ _ _ (firstn_Subseq _ 8 _)) in E.
    apply (Permutation_in _ Hp) in E; exact E.
Qed.

Lemma chart_bars_lookup_witness :
  wf_obj (global_instruments sample_data) /\
  nth_error (rawKeys (initCharts_inst sample_data)) 2 =
    Some (lit "tax_exemption") /\
  exists cnt,
    nth_error (dataset_data (initCharts_inst sample_data)) 2 = Some cnt /\
    obj_get (global_instruments sample_data) (lit "tax_exemption") = Some cnt /\
    nth_error (labels (initCharts_inst sample_data)) 2 =
      Some (displayLabel (lit "tax_exemption")).
Proof.
  assert (Hwf : wf_obj (global_instruments sample_data))
    by (apply wf_obj_decide; reflexivity).
  split; [exact Hwf|]; split; [reflexivity|].
  exact (proj2 (chart_bars_lookup sample_data Hwf) 2 _ eq_refl).
Defined.

Lemma skipn_Subseq (A : Type) (n : nat) (l : list A) : Subseq (skipn n l) l.
Proof.
  revert n; induction l as [|x l IH]; intros [|n]; simpl.
  - constructor.
  - constructor.
  - apply Subseq_take; exact (IH 0).
  - apply Subseq_skip, IH.
Qed.

Lemma Subseq_trans (A : Type) (l1 l2 l3 : list A) :
  Subseq l1 l2 -> Subseq l2 l3 -> Subseq l1 l3.
Proof.
  intros H12 H23; revert l1 H12.
  induction H23 as [|x l2 l3 _ IH|x l2 l3 _ IH]; intros l1 H12.
  - exact H12.
  - apply Subseq_skip, IH, H12.
  - inversion H12; subst.
    + apply Subseq_skip, IH; assumption.
    + apply Subseq_take, IH; assumption.
Qed.

Lemma Subseq_Forall (A : Type) (P : A -> Prop) (l1 l2 : list A) :
  Subseq l1 l2 -> Forall P l2 -> Forall P l1.
Proof.
  intros H Hall; apply Forall_forall; intros x Hx.
  rewrite Forall_forall in Hall; apply Hall, (Subseq_In _ _ _ _ H Hx).
Qed.

Lemma Subseq_length (A : Type) (l1 l2 : list A) :
  Subseq l1 l2 -> length l1 <= length l2.
Proof. induction 1; simpl; lia. Qed.

Lemma replace_del_Subseq (s pat : jsstring) : Subseq (replace s pat []) s.
Proof.
  induction s as [|c s IH]; rewrite replace_unfold;
    destruct (startsWith _ pat); simpl app; try apply skipn_Subseq.
  - constructor.
  - apply Subseq_take, IH.
Qed.

Lemma replace_del_length (s pat : jsstring) :
  length s <= length (replace s pat []) + length pat.
Proof.
  induction s as [|c s IH]; rewrite replace_unfold;
    destruct (startsWith _ pat); simpl app; rewrite ?length_skipn;
    simpl length in *; lia.
Qed.

Lemma replace_underscores_clean (s : jsstring) :
  Forall (fun c => c <> underscore) (replace_underscores s).
Proof.
  unfold replace_underscores; apply Forall_forall; intros c Hc.
  apply in_map_iff in Hc; destruct Hc as (x & <- & _).
  destruct (N.eqb x underscore) eqn:E; [discriminate|].
  apply N.eqb_neq; exact E.
Qed.

(** X18. A display label is its code with underscores turned into spaces
    and some code units deleted, never more than the 11 of "fiscal " and
    "tax ": it contains no underscore, it is no longer than the code, and
    nothing is added or reordered. *)
Theorem display_label_shape (key : jsstring) :
  Subseq (displayLabel key) (replace_underscores key) /\
  Forall (fun c => c <> underscore) (displayLabel key) /\
  length (displayLabel key) <= length key /\
  length key <= length (displayLabel key) + 11.
Proof.
  assert (Hsub : Subseq (displayLabel key) (replace_underscores key)).
  { unfold displayLabel.
    eapply Subseq_trans; apply replace_del_Subseq. }
  assert (Hlen : length (replace_underscores key) = length key)
    by (unfold replace_underscores; apply length_map).
  split; [exact Hsub|]; split; [|split].
  - apply (Subseq_Forall _ _ _ _ Hsub), replace_underscores_clean.
  - rewrite <- Hlen; apply Subseq_length, Hsub.
  - rewrite <- Hlen; unfold displayLabel.
    pose proof (replace_del_length (replace_underscores key) (lit "fiscal ")) as H1.
    pose proof (replace_del_length
                  (replace (replace_underscores key) (lit "fiscal ") [])
                  (lit "tax ")) as H2.
    change (length (lit "fiscal ")) with 7 in H1.
    change (length (lit "tax ")) with 4 in H2.
    lia.
Qed.

(* ===================================================================== *)
(** * Further properties: the order of the merged financial mapping *)
(* ===================================================================== *)

Section MergeOrder.
Variable V : Type.
Implicit Types (o src target : jsobj V) (k : jsstring) (v : V).

Lemma isIndex_true k : isIndex k = true <-> exists n, array_index k = Some n.
Proof.
  unfold isIndex; destruct (array_index k) as [n|]; split;
    try discriminate; [intros _; exists n; reflexivity | reflexivity |].
  intros [n H]; discriminate H.
Qed.

Lemma has_key_obj_set o k v k0 :
  has_key (obj_set o k v) k0 = has_key o k0 || str_eqb k k0.
Proof.
  destruct (has_key (obj_set o k v) k0) eqn:E.
  - apply has_key_In, keys_obj_set in E; symmetry; apply orb_true_iff.
    destruct E as [->|E]; [right; apply str_eqb_refl | left; apply has_key_In, E].
  - apply has_key_false in E; symmetry; apply orb_false_iff; split.
    + apply has_key_false; intros H; apply E, keys_obj_set; right; exact H.
    + apply str_eqb_neq; intros ->; apply E, keys_obj_set; left; reflexivity.
Qed.

Lemma names_obj_insert_index o n k v :
  array_index k = Some n ->
  filter (fun k0 => negb (isIndex k0)) (Object_keys (obj_insert_index o n k v)) =
  filter (fun k0 => negb (isIndex k0)) (Object_keys o).
Proof.
  intros Hk.
  assert (Hik : negb (isIndex k) = false) by (unfold isIndex; rewrite Hk; reflexivity).
  induction o as [|[k' v'] o IH]; simpl; [rewrite Hik; reflexivity|].
  destruct (array_index k') as [m|] eqn:Em; [destruct (N.ltb m n)|]; simpl;
    rewrite ?Hik, ?IH; reflexivity.
Qed.

(** The keys that are not array indices, after defining [k]. *)
Lemma names_obj_set o k v :
  filter (fun k0 => negb (isIndex k0)) (Object_keys (obj_set o k v)) =
  filter (fun k0 => negb (isIndex k0)) (Object_keys o) ++
  (if negb (isIndex k) && negb (has_key o k) then [k] else []).
Proof.
  unfold obj_set; destruct (has_key o k) eqn:E.
  - rewrite keys_obj_update, andb_false_r, app_nil_r; reflexivity.
  - rewrite andb_true_r; unfold isIndex at 3.
    destruct (array_index k) as [n|] eqn:Ek; simpl.
    + rewrite (names_obj_insert_index _ _ _ _ Ek), app_nil_r; reflexivity.
    + unfold Object_keys; rewrite map_app, filter_app; simpl.
      unfold isIndex at 2; rewrite Ek; reflexivity.
Qed.

Lemma names_spread target src :
  wf_obj src ->
  filter (fun k0 => negb (isIndex k0)) (Object_keys (spread target src)) =
  filter (fun k0 => negb (isIndex k0)) (Object_keys target) ++
  filter (fun k0 => negb (isIndex k0) && negb (has_key target k0))
         (Object_keys src).
Proof.
  unfold spread, wf_obj; revert target.
  induction src as [|[k v] src IH]; simpl; intros target Hwf.
  - rewrite app_nil_r; reflexivity.
  - apply NoDup_cons_iff in Hwf; destruct Hwf as [Hk Hwf].
    rewrite (IH _ Hwf), names_obj_set, <- app_assoc; f_equal.
    assert (Hext :
      filter (fun k0 => negb (isIndex k0) && negb (has_key (obj_set target k v) k0))
             (Object_keys src) =
      filter (fun k0 => negb (isIndex k0) && negb (has_key target k0))
             (Object_keys src)).
    { apply filter_ext_in; intros k0 Hk0; rewrite has_key_obj_set.
      destruct (str_eqb k k0) eqn:E; [|rewrite orb_false_r; reflexivity].
      apply str_eqb_eq in E; subst k0; destruct (Hk Hk0). }
    rewrite Hext.
    destruct (negb (isIndex k) && negb (has_key target k)); reflexivity.
Qed.

Lemma has_key_spread target src k :
  has_key (spread target src) k = has_key target k || has_key src k.
Proof.
  destruct (has_key (spread target src) k) eqn:E; symmetry.
  - apply has_key_In, keys_spread in E; apply orb_true_iff.
    destruct E as [E|E]; [left | right]; apply has_key_In, E.
  - apply has_key_false in E; apply orb_false_iff.
    split; apply has_key_false; intros H; apply E, keys_spread; tauto.
Qed.

Lemma filter_filter_and (A : Type) (f g : A -> bool) (l : list A) :
  filter f (filter g l) = filter (fun x => f x && g x) l.
Proof.
  induction l as [|x l IH]; simpl; [reflexivity|].
  destruct (g x); simpl; [|rewrite andb_false_r; exact IH].
  rewrite andb_true_r; destruct (f x); rewrite IH; reflexivity.
Qed.

Lemma ordered_from_weaken (lo lo' : N) (ks : list jsstring) :
  (lo' <= lo)%N -> ordered_from lo ks -> ordered_from lo' ks.
Proof.
  destruct ks as [|k ks]; simpl; [tauto|].
  destruct (array_index k); [|tauto].
  intros Hle [H1 H2]; split; [lia | exact H2].
Qed.

Lemma ordered_from_app_name (lo : N) (ks : list jsstring) k :
  array_index k = None -> ordered_from lo ks -> ordered_from lo (ks ++ [k]).
Proof.
  intros Hk; revert lo; induction ks as [|k' ks IH]; simpl; intros lo.
  - rewrite Hk; intros _; constructor.
  - destruct (array_index k').
    + intros [H1 H2]; split; [exact H1 | apply IH, H2].
    + intros H; apply Forall_app; split; [exact H | repeat constructor; exact Hk].
Qed.

Lemma ordered_from_insert_index (lo : N) o n k v :
  array_index k = Some n -> (lo <= n)%N ->
  ordered_from lo (Object_keys o) ->
  ordered_from lo (Object_keys (obj_insert_index o n k v)).
Proof.
  intros Hk; revert lo; induction o as [|[k' v'] o IH]; simpl; intros lo Hle.
  - rewrite Hk; tauto.
  - destruct (array_index k') as [m|] eqn:Em.
    + intros [H1 H2]; destruct (N.ltb m n) eqn:Elt; simpl.
      * apply N.ltb_lt in Elt; rewrite Em; split; [exact H1|].
        apply IH; [lia | exact H2].
      * apply N.ltb_ge in Elt; rewrite Hk; split; [exact Hle|].
        simpl; rewrite Em; split; [exact Elt | exact H2].
    + intros H; simpl; rewrite Hk; split; [exact Hle|].
      simpl; rewrite Em; exact H.
Qed.

Lemma ordered_obj_set o k v :
  ordered_from 0 (Object_keys o) -> ordered_from 0 (Object_keys (obj_set o k v)).
Proof.
  intros H; unfold obj_set; destruct (has_key o k).
  - rewrite keys_obj_update; exact H.
  - destruct (array_index k) as [n|] eqn:Ek.
    + apply ordered_from_insert_index; [exact Ek | lia | exact H].
    + unfold Object_keys; rewrite map_app; simpl.
      apply ordered_from_app_name; assumption.
Qed.

Lemma ordered_spread target src :
  ordered_from 0 (Object_keys target) ->
  ordered_from 0 (Object_keys (spread target src)).
Proof.
  unfold spread; revert target.
  induction src as [|[k v] src IH]; simpl; intros target H; [exact H|].
  apply IH, ordered_obj_set, H.
Qed.

Lemma filter_names_all (ks : list jsstring) :
  Forall (fun k => array_index k = None) ks ->
  filter (fun k0 => negb (isIndex k0)) ks = ks.
Proof.
  induction 1 as [|k ks Hk _ IH]; simpl; [reflexivity|].
  unfold isIndex at 1; rewrite Hk; simpl; rewrite IH; reflexivity.
Qed.

End MergeOrder.

(** X19. The order of the financial items in the modal is the enumeration
    order of the merged mapping.  Its keys that are array indices (canonical
    decimal numbers) come first, in ascending order, then all other keys;
    the other keys stand in merge order: those of [subsidies] in their
    order, then those of [taxes] that [subsidies] lacks, then those of [rd]
    that both lack, a key of several mappings keeping the place of its
    first.  When no key of the three mappings is an array index, this is
    the order of all the keys. *)
Theorem finance_merge_order (p : Policy) :
  wf_obj (subsidies p) -> wf_obj (taxes p) -> wf_obj (rd p) ->
  let merged :=
    Object_keys (subsidies p) ++
    filter (fun k => negb (has_key (subsidies p) k)) (Object_keys (taxes p)) ++
    filter (fun k => negb (has_key (subsidies p) k) &&
                     negb (has_key (taxes p) k)) (Object_keys (rd p)) in
  subHtml p = flat_map shownFinance (allFinance p) /\
  ordered_from 0 (Object_keys (allFinance p)) /\
  filter (fun k => negb (isIndex k)) (Object_keys (allFinance p)) =
    filter (fun k => negb (isIndex k)) merged /\
  (Forall (fun k => array_index k = None) merged ->
   Object_keys (allFinance p) = merged).
Proof.
  intros Hs Ht Hr; cbv zeta.
  assert (Hnames :
    filter (fun k => negb (isIndex k)) (Object_keys (allFinance p)) =
    filter (fun k => negb (isIndex k))
      (Object_keys (subsidies p) ++
       filter (fun k => negb (has_key (subsidies p) k)) (Object_keys (taxes p)) ++
       filter (fun k => negb (has_key (subsidies p) k) &&
                        negb (has_key (taxes p) k)) (Object_keys (rd p)))).
  { unfold allFinance.
    rewrite (names_spread _ _ _ Hr), (names_spread _ _ _ Ht),
            (names_spread _ _ _ Hs).
    simpl; rewrite !filter_app, !filter_filter_and, <- app_assoc.
    f_equal; [|f_equal]; apply filter_ext; intros k;
      rewrite ?has_key_spread; simpl; rewrite ?andb_true_r, ?negb_orb;
      reflexivity. }
  split; [apply subHtml_flat_map|]; split; [|split; [exact Hnames|]].
  - unfold allFinance; repeat apply ordered_spread; exact I.
  - intros Hall; rewrite <- (filter_names_all _ Hall), <- Hnames.
    symmetry; apply filter_names_all.
    apply Forall_forall; intros k Hk.
    rewrite Forall_forall in Hall; apply Hall.
    unfold allFinance in Hk; rewrite !keys_spread in Hk; simpl in Hk.
    rewrite !in_app_iff, !filter_In.
    destruct (has_key (subsidies p) k) eqn:Ea;
      [left; apply has_key_In, Ea|].
    destruct (has_key (taxes p) k) eqn:Eb.
    + right; left; split; [apply has_key_In, Eb | reflexivity].
    + right; right; split; [|reflexivity].
      apply has_key_false in Ea, Eb; tauto.
Qed.

Lemma finance_merge_order_witness :
  wf_obj (subsidies policy_x1) /\ wf_obj (taxes policy_x1) /\
  wf_obj (rd policy_x1) /\
  Forall (fun k => array_index k = None)
    [lit "fiscal_purchase_subsidy"; lit "shared_key"; lit "tax_exemption";
     lit "rd_grant"] /\
  Object_keys (allFinance policy_x1) =
    [lit "fiscal_purchase_subsidy"; lit "shared_key"; lit "tax_exemption";
     lit "rd_grant"].
Proof.
  assert (Hs : wf_obj (subsidies policy_x1)) by (apply wf_obj_decide; reflexivity).
  assert (Ht : wf_obj (taxes policy_x1)) by (apply wf_obj_decide; reflexivity).
  assert (Hr : wf_obj (rd policy_x1)) by (apply wf_obj_decide; reflexivity).
  assert (Hall : Forall (fun k => array_index k = None)
            [lit "fiscal_purchase_subsidy"; lit "shared_key";
             lit "tax_exemption"; lit "rd_grant"])
    by (repeat constructor).
  split; [exact Hs|]; split; [exact Ht|]; split; [exact Hr|]; split; [exact Hall|].
  exact (proj2 (proj2 (proj2 (finance_merge_order policy_x1 Hs Ht Hr))) Hall).
Defined.

(** Array-index keys are listed first: with [subsidies] {b}, [taxes] {"1"}
    and [rd] {a} the merged mapping enumerates 1, b, a. *)
Example finance_merge_order_index_key :
  Object_keys (allFinance policy_index_key) = [lit "1"; lit "b"; lit "a"].
Proof. reflexivity. Qed.

(* ===================================================================== *)
(** * Further properties: heading and placeholder *)
(* ===================================================================== *)

Lemma step_heading (ev : Event) (app : App) :
  table_heading (dom (step app ev)) =
  headingAfter (rawKeys (instChart app)) (table_heading (dom app)) ev.
Proof.
  unfold step; destruct ev as [nm | els | pid | | onOverlay];
    cbn [handle headingAfter].
  - destruct nm as [|c nm]; [reflexivity|].
    cbn [truthy]; rewrite filterTableByProvince_dom, renderTable_set; reflexivity.
  - destruct els as [|index rest].
    + cbn [dom with_dom]; rewrite renderTable_set; reflexivity.
    + destruct (nth_error (rawKeys (instChart app)) index); [|reflexivity].
      rewrite filterTableByInstrument_dom, renderTable_set; reflexivity.
  - unfold openModal.
    destruct (find (fun x => str_eqb (id x) pid) (globalPolicies app));
      reflexivity.
  - reflexivity.
  - destruct onOverlay; reflexivity.
Qed.

Lemma run_heading (evs : list Event) (app : App) :
  table_heading (dom (run evs app)) =
  fold_left (headingAfter (rawKeys (instChart app))) evs (table_heading (dom app)).
Proof.
  revert app; induction evs as [|ev evs IH]; intros app; [reflexivity|].
  rewrite run_cons, IH, step_heading; simpl fold_left.
  destruct (step_frame app ev) as (_ & _ & _ & F4 & _); rewrite F4; reflexivity.
Qed.

(** X20. The table heading names the last filter that ran, not the current
    selection: a named map click writes "Policies in: <name>", a click on a
    chart bar writes "Policies using: <code with spaces>", and no other
    event writes the heading.  In particular the chart click that clears
    the selection leaves the heading of the previous filter in place. *)
Theorem heading_follows_last_filter (StringToNumber : jsstring -> option Z)
    (page : Dom) (data : Data) (chinaGeo : GeoJson) (evs : list Event) :
  let loaded := initDashboard StringToNumber page data chinaGeo in
  table_heading (dom (run evs loaded)) =
    fold_left (headingAfter (rawKeys (initCharts_inst data))) evs
              (table_heading page) /\
  table_heading (dom (run (evs ++ [InstChartClick []]) loaded)) =
    table_heading (dom (run evs loaded)) /\
  policy_tbody (dom (run (evs ++ [InstChartClick []]) loaded)) =
    tbodyOf (firstn 50 (policies data)).
Proof.
  cbv zeta.
  assert (H0 : table_heading
                 (dom (initDashboard StringToNumber page data chinaGeo)) =
               table_heading page).
  { cbn [dom initDashboard]; rewrite renderTable_set; reflexivity. }
  split; [|split].
  - rewrite run_heading, H0; reflexivity.
  - rewrite !run_heading, fold_left_app; reflexivity.
  - rewrite (run_tbody _ Unfiltered _ (loaded_tbody _ page data chinaGeo)).
    rewrite fold_left_app; reflexivity.
Qed.

Example heading_after_clear_sample :
  table_heading (dom (run [MapClick Sichuan; InstChartClick []] sample_app)) =
    JStr (lit "Policies in: " ++ Sichuan) /\
  policy_tbody (dom (run [MapClick Sichuan; InstChartClick []] sample_app)) =
    policy_tbody (dom sample_app).
Proof. split; reflexivity. Qed.

(** X21. The placeholder row stands for "nothing matches" and for nothing
    else: a province filter shows it exactly when no record of the
    collection has that province, an instrument filter exactly when no
    record carries that code, the default view exactly when the collection
    is empty; and in no reachable state is the table body an empty list of
    rows. *)
Theorem placeholder_iff_no_match (StringToNumber : jsstring -> option Z)
    (page : Dom) (data : Data) (chinaGeo : GeoJson) (evs : list Event)
    (app : App) (P C : jsstring) :
  let loaded := initDashboard StringToNumber page data chinaGeo in
  (policy_tbody (dom (filterTableByProvince P app)) = NoPoliciesFound <->
   forall p, In p (globalPolicies app) -> province p <> P) /\
  (policy_tbody (dom (filterTableByInstrument C app)) = NoPoliciesFound <->
   forall p, In p (globalPolicies app) -> ~ In C (instruments p)) /\
  (policy_tbody (dom loaded) = NoPoliciesFound <-> policies data = []) /\
  policy_tbody (dom (run evs loaded)) <> Rows [].
Proof.
  cbv zeta; split; [|split; [|split]].
  - rewrite filterTableByProvince_dom, policy_tbody_renderTable,
            tbodyOf_nil_iff, filter_nil_iff.
    split; intros H p Hp; [apply str_eqb_neq | apply str_eqb_neq]; apply H, Hp.
  - rewrite filterTableByInstrument_dom, policy_tbody_renderTable,
            tbodyOf_nil_iff, filter_nil_iff.
    split; intros H p Hp.
    + intros Hin; apply arr_includes_In in Hin; rewrite (H p Hp) in Hin.
      discriminate Hin.
    + destruct (arr_includes (instruments p) C) eqn:E; [|reflexivity].
      apply arr_includes_In in E; destruct (H p Hp E).
  - rewrite loaded_tbody, tbodyOf_nil_iff; cbn [view].
    destruct (policies data); simpl; split; intros H;
      try reflexivity; discriminate H.
  - rewrite (run_tbody _ Unfiltered _ (loaded_tbody _ page data chinaGeo)).
    destruct (view _ _); simpl; discriminate.
Qed.

(* ===================================================================== *)
(** * The sample dataset under the further properties *)
(* ===================================================================== *)

Lemma sanitizer_exact_witness :
  In {| name := Some Sichuan; adcode := JNum 510000 |} (features_list sample_geo) /\
  510000%Z <> 710000%Z /\
  ~ Contains Sichuan lit_Taiwan_zh /\
  ~ Contains Sichuan (lit "Taiwan") /\
  In {| name := Some Sichuan; adcode := JNum 510000 |}
     (features_list (filterFeatures sample_StringToNumber sample_geo)).
Proof.
  assert (Hin : In {| name := Some Sichuan; adcode := JNum 510000 |}
                   (features_list sample_geo))
    by (right; right; left; reflexivity).
  assert (Hzh : ~ Contains Sichuan lit_Taiwan_zh)
    by (apply not_Contains_includes; reflexivity).
  assert (Hen : ~ Contains Sichuan (lit "Taiwan"))
    by (apply not_Contains_includes; reflexivity).
  split; [exact Hin|]; split; [discriminate|]; split; [exact Hzh|].
  split; [exact Hen|].
  apply (proj2 (sanitizer_exact sample_StringToNumber sample_geo
                  {| name := Some Sichuan; adcode := JNum 510000 |}) 510000%Z);
    [exact Hin | reflexivity | discriminate | exact Hzh | exact Hen | discriminate].
Defined.

Lemma table_row_counts_witness :
  length (policies sample_data) <= 50 /\
  map row_onclick (rows_of (policy_tbody (dom sample_app))) =
    [lit "x1"; lit "x2"].
Proof.
  assert (H : length (policies sample_data) <= 50) by (vm_compute; lia).
  split; [exact H|].
  exact (proj1 (proj2 (table_row_counts sample_StringToNumber sample_page
                         sample_data sample_geo sample_app [] [])) H).
Defined.
